(** * Lodestar: slug allocation, authorization and moderation rules

    A shallow embedding of the Flask handlers of [app/api/routes.py],
    [app/main/routes.py] and [app/auth/routes.py] over the relational
    schema of [app/models.py], and the properties of the slug allocator,
    the post life cycle, the authorization policy, comment moderation,
    registration and the listing endpoints. *)

From Stdlib Require Import Ascii Arith ZArith Lia Bool Permutation Sorted FinFun.
From stdpp Require Import base decidable relations list strings pretty.

(** ** Python text primitives

    A Python [str] is modelled by a [string] whose characters are the code
    points below 256 (Latin-1); on that range [str.lower] and [str.isalnum]
    are the functions below. *)

Module Py.

Definition code (c : ascii) : nat := nat_of_ascii c.

Definition between (lo hi n : nat) : bool := (lo <=? n)%nat && (n <=? hi)%nat.

(** [c.isalnum()]: letters, decimal digits and the numeric characters. *)
Definition isalnum (c : ascii) : bool :=
  let n := code c in
  between 48 57 n || between 65 90 n || between 97 122 n
  || (n =? 170)%nat || (n =? 178)%nat || (n =? 179)%nat || (n =? 181)%nat
  || (n =? 185)%nat || (n =? 186)%nat || between 188 190 n
  || between 192 214 n || between 216 246 n || between 248 255 n.

(** [c.lower()] for one character. *)
Definition lower_char (c : ascii) : ascii :=
  let n := code c in
  if between 65 90 n || between 192 214 n || between 216 222 n
  then ascii_of_nat (n + 32) else c.

(** [s.lower()] *)
Fixpoint lower (s : string) : string :=
  match s with
  | EmptyString => EmptyString
  | String c r => String (lower_char c) (lower r)
  end.

(** [s.replace(a, b)] for one-character [a] and [b]. *)
Fixpoint replace (a b : ascii) (s : string) : string :=
  match s with
  | EmptyString => EmptyString
  | String c r => String (if bool_decide (c = a) then b else c) (replace a b r)
  end.

(** [''.join(c for c in s if keep(c))] *)
Fixpoint join_if (keep : ascii -> bool) (s : string) : string :=
  match s with
  | EmptyString => EmptyString
  | String c r => if keep c then String c (join_if keep r) else join_if keep r
  end.

(** [s.lstrip(c)] *)
Fixpoint lstrip (c : ascii) (s : string) : string :=
  match s with
  | EmptyString => EmptyString
  | String d r => if bool_decide (d = c) then lstrip c r else s
  end.

(** [s.rstrip(c)] *)
Fixpoint rstrip (c : ascii) (s : string) : string :=
  match s with
  | EmptyString => EmptyString
  | String d r =>
      match rstrip c r with
      | EmptyString => if bool_decide (d = c) then EmptyString else String d EmptyString
      | r' => String d r'
      end
  end.

(** [s.strip(c)] *)
Definition strip (c : ascii) (s : string) : string := rstrip c (lstrip c s).

(** Truthiness of a string: [bool(s)]. *)
Definition truthy (s : string) : bool :=
  match s with EmptyString => false | _ => true end.

(** [a or b] where [a] is [None] or a string. *)
Definition or_else (a : option string) (b : string) : string :=
  match a with
  | Some s => if truthy s then s else b
  | None => b
  end.

(** Truthiness of an ORM row or [None]. *)
Definition found {A} (o : option A) : bool :=
  match o with Some _ => true | None => false end.

(** [f"{a}-{n}"] *)
Definition fmt_dash (a : string) (n : nat) : string := a +:+ "-" +:+ pretty n.

End Py.

(** ** The relational schema of [app/models.py]

    Primary keys are UUID strings drawn by [uuid4]; they are modelled by
    natural numbers taken from a supply kept with the store.  A [DateTime]
    is a clock reading.  Nullable text columns the handlers always write a
    string to are strings. *)

Definition Id := nat.
Definition DateTime := nat.

Module User.
Record t := mk {
  id : Id;
  username : string;
  email : string;
  password_hash : string;
  first_name : string;
  last_name : string;
  is_active : bool;
  is_admin : bool;
  created_at : DateTime;
  updated_at : DateTime;
  last_login : option DateTime
}.
End User.

Module Post.
Record t := mk {
  id : Id;
  title : string;
  content : string;
  excerpt : string;
  slug : string;
  is_published : bool;
  published_at : option DateTime;
  created_at : DateTime;
  updated_at : DateTime;
  user_id : Id
}.
End Post.

Module Tag.
Record t := mk {
  id : Id;
  name : string;
  slug : string;
  description : string;
  created_at : DateTime
}.
End Tag.

Module Comment.
Record t := mk {
  id : Id;
  content : string;
  is_approved : bool;
  author_name : string;
  author_email : string;
  created_at : DateTime;
  post_id : Id;
  user_id : option Id
}.
End Comment.

(** The database: one list per table, rows in insertion order. *)
Record Store := mkStore {
  users : list User.t;
  posts : list Post.t;
  tags : list Tag.t;
  comments : list Comment.t;
  post_tags : list (Id * Id);
  next_uuid : Id
}.

Definition empty_store : Store := mkStore [] [] [] [] [] 0.

(** ** Queries and session operations (SQLAlchemy) *)

Module Db.

(** [Model.query.filter(pred).first()] *)
Definition first {A} (pred : A -> bool) (rows : list A) : option A :=
  List.find pred rows.

(** [User.query.get(id)], [Post.query.get(id)], [Comment.query.get(id)] *)
Definition get_user (s : Store) (i : Id) : option User.t :=
  first (fun u => bool_decide (User.id u = i)) (users s).
Definition get_post (s : Store) (i : Id) : option Post.t :=
  first (fun p => bool_decide (Post.id p = i)) (posts s).
Definition get_comment (s : Store) (i : Id) : option Comment.t :=
  first (fun c => bool_decide (Comment.id c = i)) (comments s).

(** [Post.query.filter_by(slug=slug).first()] and its siblings. *)
Definition post_by_slug (s : Store) (sl : string) : option Post.t :=
  first (fun p => bool_decide (Post.slug p = sl)) (posts s).
Definition tag_by_slug (s : Store) (sl : string) : option Tag.t :=
  first (fun t => bool_decide (Tag.slug t = sl)) (tags s).
Definition tag_by_name (s : Store) (n : string) : option Tag.t :=
  first (fun t => bool_decide (Tag.name t = n)) (tags s).
Definition user_by_username (s : Store) (n : string) : option User.t :=
  first (fun u => bool_decide (User.username u = n)) (users s).
Definition user_by_email (s : Store) (e : string) : option User.t :=
  first (fun u => bool_decide (User.email u = e)) (users s).

(** [session.add(post); session.commit()]: the insert is refused
    (IntegrityError) when the [unique=True] column [slug] is taken. *)
Definition add_post (s : Store) (p : Post.t) : option Store :=
  if Py.found (post_by_slug s (Post.slug p)) then None
  else Some (mkStore (users s) (posts s ++ [p]) (tags s) (comments s)
                     (post_tags s) (S (next_uuid s))).

(** Tags: [name] and [slug] are both [unique=True]. *)
Definition add_tag (s : Store) (t : Tag.t) : option Store :=
  if Py.found (tag_by_name s (Tag.name t)) then None
  else if Py.found (tag_by_slug s (Tag.slug t)) then None
  else Some (mkStore (users s) (posts s) (tags s ++ [t]) (comments s)
                     (post_tags s) (S (next_uuid s))).

(** Users: [username] and [email] are both [unique=True]. *)
Definition add_user (s : Store) (u : User.t) : option Store :=
  if Py.found (user_by_username s (User.username u)) then None
  else if Py.found (user_by_email s (User.email u)) then None
  else Some (mkStore (users s ++ [u]) (posts s) (tags s) (comments s)
                     (post_tags s) (S (next_uuid s))).

(** Comments carry no unique column. *)
Definition add_comment (s : Store) (c : Comment.t) : Store :=
  mkStore (users s) (posts s) (tags s) (comments s ++ [c])
          (post_tags s) (S (next_uuid s)).

(** Committing attribute writes on the loaded post [i]. *)
Definition update_post (s : Store) (i : Id) (f : Post.t -> Post.t) : Store :=
  mkStore (users s)
          (map (fun p => if bool_decide (Post.id p = i) then f p else p) (posts s))
          (tags s) (comments s) (post_tags s) (next_uuid s).

(** Committing attribute writes on the loaded comment [i]. *)
Definition update_comment (s : Store) (i : Id) (f : Comment.t -> Comment.t) : Store :=
  mkStore (users s) (posts s) (tags s)
          (map (fun c => if bool_decide (Comment.id c = i) then f c else c) (comments s))
          (post_tags s) (next_uuid s).

(** [session.delete(post); session.commit()]: the relationship
    [comments] cascades ([all, delete-orphan]) and the rows of the
    association table [post_tags] go with the post. *)
Definition delete_post (s : Store) (i : Id) : Store :=
  mkStore (users s)
          (List.filter (fun p => negb (bool_decide (Post.id p = i))) (posts s))
          (tags s)
          (List.filter (fun c => negb (bool_decide (Comment.post_id c = i))) (comments s))
          (List.filter (fun pt => negb (bool_decide (fst pt = i))) (post_tags s))
          (next_uuid s).


(** [query.order_by(key.desc())]: rows by decreasing key; rows with equal
    keys stay in table order. *)
Fixpoint insert_desc {A} (key : A -> nat) (x : A) (l : list A) : list A :=
  match l with
  | [] => [x]
  | y :: ys => if (key y <=? key x)%nat then x :: l else y :: insert_desc key x ys
  end.

Definition order_by_desc {A} (key : A -> nat) (rows : list A) : list A :=
  foldr (insert_desc key) [] rows.

(** The result of [query.paginate(page=.., per_page=.., error_out=False)]
    (Flask-SQLAlchemy): a page below 1 is read as 1, a page size below 1
    as 20, and no row is an empty page, never a 404. *)
Record Pagination (A : Type) := mkPagination {
  items : list A;
  total : nat;
  pages : nat
}.
Arguments mkPagination {A}.
Arguments items {A}.
Arguments total {A}.
Arguments pages {A}.

(** The query binds [per_page] as LIMIT and [(page - 1) * per_page] as
    OFFSET, and the database takes 64-bit integers: beyond [max_int] the
    driver raises OverflowError and the request is answered 500.
    [paginate] below is the result within that range, which [bindable]
    states; the properties of the page arguments assume it. *)
Definition max_int : Z := 9223372036854775807.

Definition bindable (page per_page : Z) : Prop :=
  let page := if (page <? 1)%Z then 1%Z else page in
  let per_page := if (per_page <? 1)%Z then 20%Z else per_page in
  (per_page <= max_int)%Z /\ ((page - 1) * per_page <= max_int)%Z.

Definition paginate {A} (rows : list A) (page per_page : Z) : Pagination A :=
  let page := if (page <? 1)%Z then 1%Z else page in
  let per_page := if (per_page <? 1)%Z then 20%Z else per_page in
  let n := Z.to_nat per_page in
  mkPagination
    (take n (drop (Z.to_nat ((page - 1) * per_page)) rows))
    (length rows)
    (if (length rows =? 0)%nat then 0 else (length rows + n - 1) / n).

End Db.

(** ** Requests and responses (Flask, Flask-JWT-Extended) *)

(** The query string, read with [request.args.get(key, default, type=int)]:
    an integer argument is [None] when the key is absent or not an
    integer. *)
Record Args := mkArgs {
  arg_page : option Z;
  arg_per_page : option Z;
  arg_published_only : option string;
  arg_tag : option string;
  arg_approved_only : option string
}.

Definition no_args : Args := mkArgs None None None None None.

(** The JSON objects the handlers read.  A key is [None] when absent; a
    present key holds a value of the JSON type the handler expects, a
    string, or a boolean for [is_published].  [other_keys] tells whether
    the object has keys the handler does not read: with none of either the
    object is [{}], which is falsy.

    The handlers check no type.  A body that is not of this shape (a
    number where a string is expected, say, or a string with a lone
    surrogate, which the database driver cannot encode) makes them raise
    where they call a string method, match a pattern or bind a parameter,
    often outside any [try]: the answer is then a 500.  Such bodies are
    outside the model, and every property below is about bodies of this
    shape. *)
Module Json.
Record post := mkPost {
  title : option string;
  content : option string;
  excerpt : option string;
  is_published : option bool;
  slug : option string;
  post_other_keys : bool
}.
Record tag := mkTag {
  name : option string;
  tag_slug : option string;
  description : option string;
  tag_other_keys : bool
}.
Record comment := mkComment {
  comment_content : option string;
  author_name : option string;
  author_email : option string;
  comment_other_keys : bool
}.
Record user := mkUser {
  username : option string;
  email : option string;
  password : option string;
  first_name : option string;
  last_name : option string;
  user_other_keys : bool
}.

Definition has {A} (o : option A) : bool :=
  match o with Some _ => true | None => false end.

(** [bool(data)] for each shape; [request.get_json()] may be [None]. *)
Definition truthy_post (d : option post) : bool :=
  match d with
  | None => false
  | Some d => has (title d) || has (content d) || has (excerpt d)
              || has (is_published d) || has (slug d) || post_other_keys d
  end.
Definition truthy_tag (d : option tag) : bool :=
  match d with
  | None => false
  | Some d => has (name d) || has (tag_slug d) || has (description d) || tag_other_keys d
  end.
Definition truthy_comment (d : option comment) : bool :=
  match d with
  | None => false
  | Some d => has (comment_content d) || has (author_name d) || has (author_email d)
              || comment_other_keys d
  end.
Definition truthy_user (d : option user) : bool :=
  match d with
  | None => false
  | Some d => has (username d) || has (email d) || has (password d)
              || has (first_name d) || has (last_name d) || user_other_keys d
  end.

(** [field not in data or not data[field]] *)
Definition missing (f : option string) : bool :=
  match f with Some v => negb (Py.truthy v) | None => true end.

(** [data.get(key, '')] *)
Definition get_str (f : option string) : string := default "" f.
End Json.

(** What [post.to_dict()] serializes: the row, its author, its tags and the
    number of its comments. *)
Record PostDict := mkPostDict {
  pd_post : Post.t;
  pd_author : option User.t;
  pd_tags : list Tag.t;
  pd_comment_count : nat
}.

(** [post.tags]: the tags the association table gives the post, listed
    here in the order of the tags table (the database lists them in the
    order of its join; no request writes the association table, and no
    property below depends on this order). *)
Definition tags_of (s : Store) (p : Post.t) : list Tag.t :=
  List.filter
    (fun t => existsb (fun pt => bool_decide (pt = (Post.id p, Tag.id t))) (post_tags s))
    (tags s).

Definition post_to_dict (s : Store) (p : Post.t) : PostDict :=
  mkPostDict p (Db.get_user s (Post.user_id p)) (tags_of s p)
    (length (List.filter (fun c => bool_decide (Comment.post_id c = Post.id p)) (comments s))).

(** Response bodies; the other dictionaries serialize their row.  [Msg] is
    the body of Flask-JWT-Extended's own answers. *)
Inductive Body :=
| Error (error : string)
| Msg (msg : string)
| Message (message : string)
| PostBody (post : PostDict)
| PostMessage (message : string) (post : PostDict)
| PostPage (posts : list PostDict) (total pages : nat) (current_page : Z)
| TagPostPage (tag : Tag.t) (posts : list PostDict) (total pages : nat) (current_page : Z)
| TagList (tags : list Tag.t)
| TagMessage (message : string) (tag : Tag.t)
| CommentList (comments : list Comment.t)
| CommentMessage (message : string) (comment : Comment.t)
| UserPage (users : list User.t) (total pages : nat) (current_page : Z)
| CommentPage (comments : list Comment.t) (total pages : nat) (current_page : Z)
| Registered (message : string) (user : User.t) (access_token refresh_token : Id).

Record Response := mkResponse { status : nat; body : Body }.

Definition Outcome : Type := Response * Store.

Module Flask.

(** The request-local context [g]: the identity of the token that
    [verify_jwt_in_request] has verified in this request, if it ran. *)
Record G := mkG { jwt_identity : option Id }.

(** Exceptions the handlers can raise outside a [try]. *)
Inductive Raised := RuntimeError | AttributeError.

(** [get_jwt_identity()]: the verified identity; a [RuntimeError] when no
    token was verified in this request. *)
Definition get_jwt_identity (g : G) : Raised + Id :=
  match jwt_identity g with
  | Some i => inr i
  | None => inl RuntimeError
  end.

(** What [verify_jwt_in_request()] makes of the [Authorization] header:
    a valid access token and its identity, or the error it raises, which
    the extension's default handlers answer with [{"msg": ...}]: 401 for a
    missing header ("Missing Authorization Header") and for an expired
    token ("Token has expired"), 422 for a header or token it cannot
    decode and for a refresh token ("Only non-refresh tokens are
    allowed"). *)
Inductive Token :=
| Access (identity : Id)
| Unauthorized (msg : string)
| Unprocessable (msg : string).

(** An HTTP request: its token and its query string. *)
Record Request := mkRequest { token : Token; args : Args }.

(** The identity of the request's access token, when it has a valid one. *)
Definition bearer (r : Request) : option Id :=
  match token r with
  | Access i => Some i
  | Unauthorized _ | Unprocessable _ => None
  end.

Definition unauthorized : Response := mkResponse 401 (Msg "Missing Authorization Header").
Definition not_found : Response := mkResponse 404 (Error "Not found").
Definition internal_error : Response := mkResponse 500 (Error "Internal server error").

(** A view without decorator runs with no verified token, whatever the
    request carries. *)
Definition undecorated {A} (view : G -> Request -> Store -> A)
    (r : Request) (s : Store) : A :=
  view (mkG None) r s.

(** [@jwt_required()]: verify the token, then run the view; [refuse]
    builds the answer to a request whose token is refused, from its status
    and message. *)
Definition jwt_required_with {A} (refuse : nat -> string -> Store -> A)
    (view : G -> Request -> Store -> A) (r : Request) (s : Store) : A :=
  match token r with
  | Access i => view (mkG (Some i)) r s
  | Unauthorized msg => refuse 401 msg s
  | Unprocessable msg => refuse 422 msg s
  end.

(** The same for the views of [app/api/routes.py]; [ret] turns the refusal
    into the view's kind of result. *)
Definition jwt_required {A} (ret : Outcome -> A) (view : G -> Request -> Store -> A)
    : Request -> Store -> A :=
  jwt_required_with (fun st msg s => ret (mkResponse st (Msg msg), s)) view.

(** [request.args.get(key, default, type=int)] *)
Definition int_arg (a : option Z) (dflt : Z) : Z := default dflt a.

(** [request.args.get(key, dflt).lower() == 'true'] *)
Definition flag_arg (a : option string) (dflt : string) : bool :=
  bool_decide (Py.lower (default dflt a) = "true").

End Flask.

(** ** [app/api/routes.py] *)

Module Api.
Import Flask.

(** [admin_required]: the wrapped view runs only for a token whose user
    exists and is an admin. *)
Definition admin_required (view : G -> Request -> Store -> Outcome)
    : Request -> Store -> Outcome :=
  jwt_required (fun o => o) (fun g r s =>
    match get_jwt_identity g with
    | inl _ => (internal_error, s)
    | inr current_user_id =>
        match Db.get_user s current_user_id with
        | None => (mkResponse 403 (Error "Admin privileges required"), s)
        | Some user =>
            if negb (User.is_admin user)
            then (mkResponse 403 (Error "Admin privileges required"), s)
            else view g r s
        end
    end).

(** Lines 72-73 and 194-195: the slug seed and its clean-up. *)
Definition slug_candidate (slug : option string) (source : string) : string :=
  let slug := Py.or_else slug
                (Py.replace "_" "-" (Py.replace " " "-" (Py.lower source))) in
  Py.strip "-" (Py.join_if (fun c => Py.isalnum c || bool_decide (c = "-"%char)) slug).

(** Lines 76-80: [while Post.query.filter_by(slug=slug).first(): ...],
    one iteration per unit of fuel. *)
Fixpoint unique_slug_loop (fuel : nat) (s : Store) (original_slug slug : string)
    (counter : nat) : option string :=
  match fuel with
  | 0 => None
  | S fuel =>
      if Py.found (Db.post_by_slug s slug)
      then unique_slug_loop fuel s original_slug (Py.fmt_dash original_slug counter) (S counter)
      else Some slug
  end.

(** The loop started as the handler starts it; a table of [n] posts cannot
    hold the slug for more than [n] iterations. *)
Definition unique_slug (s : Store) (original_slug : string) : option string :=
  unique_slug_loop (S (length (posts s))) s original_slug original_slug 1.

(** [GET /posts] *)
Definition get_posts (g : G) (r : Request) (s : Store) : Outcome :=
  let page := int_arg (arg_page (args r)) 1 in
  let per_page := int_arg (arg_per_page (args r)) 10 in
  let published_only := flag_arg (arg_published_only (args r)) "true" in
  let tag_slug := arg_tag (args r) in
  let query := posts s in
  let query := if published_only then List.filter Post.is_published query else query in
  let query :=
    match tag_slug with
    | Some sl =>
        if Py.truthy sl then
          match Db.tag_by_slug s sl with
          | Some tag =>
              List.filter (fun p => existsb (fun pt => bool_decide (pt = (Post.id p, Tag.id tag)))
                                      (post_tags s)) query
          | None => query
          end
        else query
    | None => query
    end in
  let posts := Db.paginate (Db.order_by_desc Post.created_at query) page per_page in
  (mkResponse 200 (PostPage (map (post_to_dict s) (Db.items posts))
                     (Db.total posts) (Db.pages posts) page), s).

(** [POST /posts], under [@jwt_required()]; [None] when the slug loop is
    out of fuel. *)
Definition create_post (now : DateTime) (data : option Json.post)
    (g : G) (r : Request) (s : Store) : option Outcome :=
  match get_jwt_identity g with
  | inl _ => Some (internal_error, s)
  | inr current_user_id =>
      match data with
      | None => Some (mkResponse 400 (Error "No data provided"), s)
      | Some d =>
          if negb (Json.truthy_post data) then Some (mkResponse 400 (Error "No data provided"), s)
          else if Json.missing (Json.title d) then Some (mkResponse 400 (Error "title is required"), s)
          else if Json.missing (Json.content d) then Some (mkResponse 400 (Error "content is required"), s)
          else
            let original_slug := slug_candidate (Json.slug d) (Json.get_str (Json.title d)) in
            match unique_slug s original_slug with
            | None => None
            | Some slug =>
                let is_published := default false (Json.is_published d) in
                let post := Post.mk (next_uuid s) (Json.get_str (Json.title d))
                              (Json.get_str (Json.content d)) (Json.get_str (Json.excerpt d))
                              slug is_published
                              (if is_published then Some now else None)
                              now now current_user_id in
                match Db.add_post s post with
                | Some s' =>
                    Some (mkResponse 201
                            (PostMessage "Post created successfully" (post_to_dict s' post)), s')
                | None => Some (mkResponse 500 (Error "Failed to create post"), s)
                end
            end
      end
  end.

(** [GET /posts/<post_id>] *)
Definition get_post (post_id : Id) (g : G) (r : Request) (s : Store) : Outcome :=
  match Db.get_post s post_id with
  | None => (not_found, s)
  | Some post => (mkResponse 200 (PostBody (post_to_dict s post)), s)
  end.

(** Lines 122 and 162: [post.user_id != current_user_id and not user.is_admin];
    [user.is_admin] is only read when the first operand holds, and raises
    when [user] is [None]. *)
Definition permission_denied (post : Post.t) (current_user_id : Id)
    (user : option User.t) : Raised + bool :=
  if negb (bool_decide (Post.user_id post = current_user_id)) then
    match user with
    | Some u => inr (negb (User.is_admin u))
    | None => inl AttributeError
    end
  else inr false.

(** Lines 130-141: the attribute writes of an update. *)
Definition apply_update (now : DateTime) (d : Json.post) (post : Post.t) : Post.t :=
  let title := match Json.title d with Some v => v | None => Post.title post end in
  let content := match Json.content d with Some v => v | None => Post.content post end in
  let excerpt := match Json.excerpt d with Some v => v | None => Post.excerpt post end in
  let is_published :=
    match Json.is_published d with Some v => v | None => Post.is_published post end in
  let published_at :=
    match Json.is_published d with
    | Some v =>
        if v && negb (Py.found (Post.published_at post)) then Some now
        else Post.published_at post
    | None => Post.published_at post
    end in
  Post.mk (Post.id post) title content excerpt (Post.slug post) is_published published_at
    (Post.created_at post) now (Post.user_id post).

(** [PUT /posts/<post_id>], under [@jwt_required()] *)
Definition update_post (now : DateTime) (post_id : Id) (data : option Json.post)
    (g : G) (r : Request) (s : Store) : Outcome :=
  match get_jwt_identity g with
  | inl _ => (internal_error, s)
  | inr current_user_id =>
      match Db.get_post s post_id with
      | None => (not_found, s)
      | Some post =>
          match permission_denied post current_user_id (Db.get_user s current_user_id) with
          | inl _ => (internal_error, s)
          | inr true => (mkResponse 403 (Error "Permission denied"), s)
          | inr false =>
              match data with
              | None => (mkResponse 400 (Error "No data provided"), s)
              | Some d =>
                  if negb (Json.truthy_post data)
                  then (mkResponse 400 (Error "No data provided"), s)
                  else
                    let s' := Db.update_post s post_id (apply_update now d) in
                    (mkResponse 200
                       (PostMessage "Post updated successfully"
                          (post_to_dict s' (apply_update now d post))), s')
              end
          end
      end
  end.

(** [DELETE /posts/<post_id>], under [@jwt_required()] *)
Definition delete_post (post_id : Id) (g : G) (r : Request) (s : Store) : Outcome :=
  match get_jwt_identity g with
  | inl _ => (internal_error, s)
  | inr current_user_id =>
      match Db.get_post s post_id with
      | None => (not_found, s)
      | Some post =>
          match permission_denied post current_user_id (Db.get_user s current_user_id) with
          | inl _ => (internal_error, s)
          | inr true => (mkResponse 403 (Error "Permission denied"), s)
          | inr false =>
              (mkResponse 200 (Message "Post deleted successfully"), Db.delete_post s post_id)
          end
      end
  end.

(** [GET /tags] *)
Definition get_tags (g : G) (r : Request) (s : Store) : Outcome :=
  (mkResponse 200 (TagList (tags s)), s).

(** [POST /tags], under [@jwt_required()] *)
Definition create_tag (now : DateTime) (data : option Json.tag)
    (g : G) (r : Request) (s : Store) : Outcome :=
  match data with
  | None => (mkResponse 400 (Error "Tag name is required"), s)
  | Some d =>
      if negb (Json.truthy_tag data) then (mkResponse 400 (Error "Tag name is required"), s)
      else
        match Json.name d with
        | None => (mkResponse 400 (Error "Tag name is required"), s)
        | Some name =>
            if Py.found (Db.tag_by_name s name)
            then (mkResponse 400 (Error "Tag already exists"), s)
            else
              let slug := slug_candidate (Json.tag_slug d) name in
              let tag := Tag.mk (next_uuid s) name slug (Json.get_str (Json.description d)) now in
              match Db.add_tag s tag with
              | Some s' => (mkResponse 201 (TagMessage "Tag created successfully" tag), s')
              | None => (mkResponse 500 (Error "Failed to create tag"), s)
              end
        end
  end.

(** [GET /posts/<post_id>/comments] *)
Definition get_post_comments (post_id : Id) (g : G) (r : Request) (s : Store) : Outcome :=
  match Db.get_post s post_id with
  | None => (not_found, s)
  | Some post =>
      let comments :=
        List.filter (fun c => bool_decide (Comment.post_id c = post_id) && Comment.is_approved c)
          (comments s) in
      (mkResponse 200 (CommentList comments), s)
  end.

(** [POST /posts/<post_id>/comments]: no decorator. *)
Definition create_comment (now : DateTime) (post_id : Id) (data : option Json.comment)
    (g : G) (r : Request) (s : Store) : Outcome :=
  match Db.get_post s post_id with
  | None => (not_found, s)
  | Some post =>
      match data with
      | None => (mkResponse 400 (Error "Comment content is required"), s)
      | Some d =>
          if negb (Json.truthy_comment data)
          then (mkResponse 400 (Error "Comment content is required"), s)
          else
            match Json.comment_content d with
            | None => (mkResponse 400 (Error "Comment content is required"), s)
            | Some content =>
                let user_id :=
                  match get_jwt_identity g with
                  | inr current_user_id => Some current_user_id
                  | inl _ => None
                  end in
                let comment := Comment.mk (next_uuid s) content false
                                 (Json.get_str (Json.author_name d))
                                 (Json.get_str (Json.author_email d))
                                 now post_id user_id in
                (mkResponse 201 (CommentMessage "Comment created successfully" comment),
                 Db.add_comment s comment)
            end
      end
  end.

(** [GET /admin/users], under [@admin_required] *)
Definition get_all_users (g : G) (r : Request) (s : Store) : Outcome :=
  let page := int_arg (arg_page (args r)) 1 in
  let per_page := int_arg (arg_per_page (args r)) 20 in
  let users := Db.paginate (users s) page per_page in
  (mkResponse 200 (UserPage (Db.items users) (Db.total users) (Db.pages users) page), s).

(** [GET /admin/comments], under [@admin_required] *)
Definition get_all_comments (g : G) (r : Request) (s : Store) : Outcome :=
  let page := int_arg (arg_page (args r)) 1 in
  let per_page := int_arg (arg_per_page (args r)) 20 in
  let approved_only := flag_arg (arg_approved_only (args r)) "false" in
  let query := comments s in
  let query := if approved_only then List.filter Comment.is_approved query else query in
  let comments := Db.paginate (Db.order_by_desc Comment.created_at query) page per_page in
  (mkResponse 200 (CommentPage (Db.items comments) (Db.total comments)
                     (Db.pages comments) page), s).

(** [POST /admin/comments/<comment_id>/approve], under [@admin_required] *)
Definition approve_comment (comment_id : Id) (g : G) (r : Request) (s : Store) : Outcome :=
  match Db.get_comment s comment_id with
  | None => (not_found, s)
  | Some comment =>
      (mkResponse 200 (Message "Comment approved successfully"),
       Db.update_comment s comment_id
         (fun c => Comment.mk (Comment.id c) (Comment.content c) true (Comment.author_name c)
                     (Comment.author_email c) (Comment.created_at c) (Comment.post_id c)
                     (Comment.user_id c)))
  end.

End Api.

(** ** [app/main/routes.py] *)

Module Main.
Import Flask.

(** Sort key of [Post.published_at.desc()]: a NULL sorts below every
    date (SQLite). *)
Definition published_key (p : Post.t) : nat :=
  match Post.published_at p with Some t => S t | None => 0 end.

(** [GET /posts] *)
Definition get_posts (g : G) (r : Request) (s : Store) : Outcome :=
  let page := int_arg (arg_page (args r)) 1 in
  let per_page := int_arg (arg_per_page (args r)) 10 in
  let posts := Db.paginate
                 (Db.order_by_desc published_key (List.filter Post.is_published (posts s)))
                 page per_page in
  (mkResponse 200 (PostPage (map (post_to_dict s) (Db.items posts))
                     (Db.total posts) (Db.pages posts) page), s).

(** [GET /posts/<slug>] *)
Definition get_post (slug : string) (g : G) (r : Request) (s : Store) : Outcome :=
  match Db.first (fun p => bool_decide (Post.slug p = slug) && Post.is_published p) (posts s) with
  | None => (mkResponse 404 (Error "Post not found"), s)
  | Some post => (mkResponse 200 (PostBody (post_to_dict s post)), s)
  end.

(** [GET /tags] *)
Definition get_tags (g : G) (r : Request) (s : Store) : Outcome :=
  (mkResponse 200 (TagList (tags s)), s).

(** [tag.posts]: the backref of [Post.tags], declared by name only, so
    loaded as a plain list ([lazy='dynamic'] is given to [Post.tags]
    alone). *)
Definition tag_posts (s : Store) (tag : Tag.t) : list Post.t :=
  List.filter (fun p => existsb (fun pt => bool_decide (pt = (Post.id p, Tag.id tag)))
                          (post_tags s)) (posts s).

(** [rows.filter_by(...)] on a list: the attribute does not exist. *)
Definition list_filter_by (rows : list Post.t) : Raised + list Post.t :=
  inl AttributeError.

(** [GET /tags/<slug>]: for an existing tag line 69 calls
    [tag.posts.filter_by] and raises outside any [try]; the application's
    500 handler answers. *)
Definition get_posts_by_tag (slug : string) (g : G) (r : Request) (s : Store) : Outcome :=
  match Db.tag_by_slug s slug with
  | None => (mkResponse 404 (Error "Tag not found"), s)
  | Some tag =>
      let page := int_arg (arg_page (args r)) 1 in
      let per_page := int_arg (arg_per_page (args r)) 10 in
      match list_filter_by (tag_posts s tag) with
      | inl _ => (internal_error, s)
      | inr published =>
          let posts := Db.paginate (Db.order_by_desc published_key published)
                         page per_page in
          (mkResponse 200 (TagPostPage tag (map (post_to_dict s) (Db.items posts))
                             (Db.total posts) (Db.pages posts) page), s)
      end
  end.

End Main.

(** ** [app/auth/routes.py] *)

Module Auth.
Import Flask.

Definition all_chars (f : ascii -> bool) (s : string) : bool :=
  bool_decide (Py.join_if f s = s).

(** [s.partition(c)] at the first [c], [None] when [c] does not occur. *)
Fixpoint split_first (c : ascii) (s : string) : option (string * string) :=
  match s with
  | EmptyString => None
  | String d r =>
      if bool_decide (d = c) then Some (EmptyString, r)
      else match split_first c r with
           | Some (a, b) => Some (String d a, b)
           | None => None
           end
  end.

(** [s.rpartition(c)] at the last [c], [None] when [c] does not occur. *)
Fixpoint split_last (c : ascii) (s : string) : option (string * string) :=
  match s with
  | EmptyString => None
  | String d r =>
      match split_last c r with
      | Some (a, b) => Some (String d a, b)
      | None => if bool_decide (d = c) then Some (EmptyString, r) else None
      end
  end.

Definition ascii_letter (c : ascii) : bool :=
  let n := Py.code c in Py.between 65 90 n || Py.between 97 122 n.
Definition ascii_digit (c : ascii) : bool := Py.between 48 57 (Py.code c).

(** [[a-zA-Z0-9._%+-]] *)
Definition local_char (c : ascii) : bool :=
  ascii_letter c || ascii_digit c
  || bool_decide (c = "."%char) || bool_decide (c = "_"%char) || bool_decide (c = "%"%char)
  || bool_decide (c = "+"%char) || bool_decide (c = "-"%char).

(** [[a-zA-Z0-9.-]] *)
Definition domain_char (c : ascii) : bool :=
  ascii_letter c || ascii_digit c || bool_decide (c = "."%char) || bool_decide (c = "-"%char).

(** The pattern without its [$]: the local part ends at the first [@]
    (no class holds [@]) and the last label starts after the last dot
    (letters only follow it). *)
Definition full_match (email : string) : bool :=
  match split_first "@" email with
  | None => false
  | Some (loc, rest) =>
      match split_last "." rest with
      | None => false
      | Some (dom, tld) =>
          Py.truthy loc && all_chars local_char loc
          && Py.truthy dom && all_chars domain_char dom
          && all_chars ascii_letter tld && (2 <=? String.length tld)%nat
      end
  end.

(** Drops one final line feed: [$] also matches just before it. *)
Fixpoint chomp (s : string) : string :=
  match s with
  | EmptyString => EmptyString
  | String c EmptyString => if bool_decide (c = "010"%char) then EmptyString else s
  | String c r => String c (chomp r)
  end.

(** [validate_email]: [re.match] of
    [^[a-zA-Z0-9._%+-]+@[a-zA-Z0-9.-]+\.[a-zA-Z]{2,}$]. *)
Definition validate_email (email : string) : bool := full_match (chomp email).

(** [POST /auth/register]; [generate_password_hash] is werkzeug's. *)
Definition register (generate_password_hash : string -> string) (now : DateTime)
    (data : option Json.user) (g : G) (r : Request) (s : Store) : Outcome :=
  match data with
  | None => (mkResponse 400 (Error "No data provided"), s)
  | Some d =>
      if negb (Json.truthy_user data) then (mkResponse 400 (Error "No data provided"), s)
      else if Json.missing (Json.username d) then (mkResponse 400 (Error "username is required"), s)
      else if Json.missing (Json.email d) then (mkResponse 400 (Error "email is required"), s)
      else if Json.missing (Json.password d) then (mkResponse 400 (Error "password is required"), s)
      else if negb (validate_email (Json.get_str (Json.email d)))
      then (mkResponse 400 (Error "Invalid email format"), s)
      else if Py.found (Db.user_by_username s (Json.get_str (Json.username d)))
      then (mkResponse 400 (Error "Username already exists"), s)
      else if Py.found (Db.user_by_email s (Json.get_str (Json.email d)))
      then (mkResponse 400 (Error "Email already exists"), s)
      else
        let user := User.mk (next_uuid s) (Json.get_str (Json.username d))
                      (Json.get_str (Json.email d))
                      (generate_password_hash (Json.get_str (Json.password d)))
                      (Json.get_str (Json.first_name d)) (Json.get_str (Json.last_name d))
                      true false now now None in
        match Db.add_user s user with
        | Some s' =>
            (mkResponse 201 (Registered "User registered successfully" user
                               (User.id user) (User.id user)), s')
        | None => (mkResponse 500 (Error "Failed to register user"), s)
        end
  end.

End Auth.

(** ** The route table: each view under its decorators *)

Module App.
Import Flask.

Inductive Call :=
| GET_api_posts
| POST_api_posts (data : option Json.post)
| GET_api_post (post_id : Id)
| PUT_api_post (post_id : Id) (data : option Json.post)
| DELETE_api_post (post_id : Id)
| GET_api_tags
| POST_api_tags (data : option Json.tag)
| GET_api_post_comments (post_id : Id)
| POST_api_post_comments (post_id : Id) (data : option Json.comment)
| GET_api_admin_users
| GET_api_admin_comments
| POST_api_admin_comment_approve (comment_id : Id)
| GET_posts
| GET_post (slug : string)
| GET_tags
| GET_tag (slug : string)
| POST_auth_register (data : option Json.user).

(** One request served at clock reading [now]; [None] when the view does
    not return. *)
Definition dispatch (generate_password_hash : string -> string) (now : DateTime)
    (c : Call) (r : Request) (s : Store) : option Outcome :=
  match c with
  | GET_api_posts => Some (undecorated Api.get_posts r s)
  | POST_api_posts data => jwt_required Some (Api.create_post now data) r s
  | GET_api_post i => Some (undecorated (Api.get_post i) r s)
  | PUT_api_post i data => Some (jwt_required (fun o => o) (Api.update_post now i data) r s)
  | DELETE_api_post i => Some (jwt_required (fun o => o) (Api.delete_post i) r s)
  | GET_api_tags => Some (undecorated Api.get_tags r s)
  | POST_api_tags data => Some (jwt_required (fun o => o) (Api.create_tag now data) r s)
  | GET_api_post_comments i => Some (undecorated (Api.get_post_comments i) r s)
  | POST_api_post_comments i data => Some (undecorated (Api.create_comment now i data) r s)
  | GET_api_admin_users => Some (Api.admin_required Api.get_all_users r s)
  | GET_api_admin_comments => Some (Api.admin_required Api.get_all_comments r s)
  | POST_api_admin_comment_approve i => Some (Api.admin_required (Api.approve_comment i) r s)
  | GET_posts => Some (undecorated Main.get_posts r s)
  | GET_post slug => Some (undecorated (Main.get_post slug) r s)
  | GET_tags => Some (undecorated Main.get_tags r s)
  | GET_tag slug => Some (undecorated (Main.get_posts_by_tag slug) r s)
  | POST_auth_register data =>
      Some (undecorated (Auth.register generate_password_hash now data) r s)
  end.

(** A client session: requests served one after the other, each with its
    clock reading; the responses in order and the final store. *)
Fixpoint serve (generate_password_hash : string -> string)
    (reqs : list (DateTime * Call * Request)) (s : Store)
    : option (list Response * Store) :=
  match reqs with
  | [] => Some ([], s)
  | (now, c, r) :: rest =>
      match dispatch generate_password_hash now c r s with
      | None => None
      | Some (resp, s') =>
          match serve generate_password_hash rest s' with
          | None => None
          | Some (resps, s'') => Some (resp :: resps, s'')
          end
      end
  end.

End App.

(** ** [app/auth/routes.py]: the session endpoints *)

Module Account.
Import Flask.

(** Bodies of the session endpoints. *)
Inductive Body :=
| Error (error : string)
| Msg (msg : string)
| Message (message : string)
| Session (message : string) (user : User.t) (access_token refresh_token : Id)
| AccessToken (access_token : Id)
| Profile (user : User.t).

Record Response := mkResponse { status : nat; body : Body }.

Definition Outcome : Type := Response * Store.

(** The JSON objects of [login] and [change_password], read with
    [data.get(key)]. *)
Record credentials := mkCredentials {
  username_or_email : option string;
  password : option string;
  credentials_other_keys : bool
}.

Record password_change := mkPasswordChange {
  current_password : option string;
  new_password : option string;
  change_other_keys : bool
}.

Definition truthy_credentials (d : option credentials) : bool :=
  match d with
  | None => false
  | Some d => Json.has (username_or_email d) || Json.has (password d)
              || credentials_other_keys d
  end.

Definition truthy_change (d : option password_change) : bool :=
  match d with
  | None => false
  | Some d => Json.has (current_password d) || Json.has (new_password d)
              || change_other_keys d
  end.

(** The answer of [@jwt_required()] to a refused token, for these views. *)
Definition refused (st : nat) (msg : string) (s : Store) : Outcome :=
  (mkResponse st (Msg msg), s).

(** [User.query.filter((User.username == x) | (User.email == x)).first()]:
    the query has no [ORDER BY]; the database answers the disjunction from
    the unique indexes of the two columns, the username's first, so the
    row whose username is [x] comes before the row whose email is [x]. *)
Definition user_by_login (s : Store) (x : string) : option User.t :=
  match Db.user_by_username s x with
  | Some u => Some u
  | None => Db.user_by_email s x
  end.

(** Committing attribute writes on the loaded user [i]; the column
    [updated_at] takes the clock reading ([onupdate]). *)
Definition update_user (s : Store) (i : Id) (f : User.t -> User.t) : Store :=
  mkStore (map (fun u => if bool_decide (User.id u = i) then f u else u) (users s))
          (posts s) (tags s) (comments s) (post_tags s) (next_uuid s).

Definition logged_in (now : DateTime) (u : User.t) : User.t :=
  User.mk (User.id u) (User.username u) (User.email u) (User.password_hash u)
    (User.first_name u) (User.last_name u) (User.is_active u) (User.is_admin u)
    (User.created_at u) now (Some now).

Definition with_password (hash : string) (now : DateTime) (u : User.t) : User.t :=
  User.mk (User.id u) (User.username u) (User.email u) hash
    (User.first_name u) (User.last_name u) (User.is_active u) (User.is_admin u)
    (User.created_at u) now (User.last_login u).

(** [POST /auth/login]; [check_password_hash] is werkzeug's. *)
Definition login (check_password_hash : string -> string -> bool) (now : DateTime)
    (data : option credentials) (g : G) (r : Request) (s : Store) : Outcome :=
  match data with
  | None => (mkResponse 400 (Error "No data provided"), s)
  | Some d =>
      if negb (truthy_credentials data) then (mkResponse 400 (Error "No data provided"), s)
      else if Json.missing (username_or_email d) || Json.missing (password d)
      then (mkResponse 400 (Error "Username/email and password are required"), s)
      else
        match user_by_login s (Json.get_str (username_or_email d)) with
        | None => (mkResponse 401 (Error "Invalid credentials"), s)
        | Some user =>
            if negb (check_password_hash (User.password_hash user)
                       (Json.get_str (password d)))
            then (mkResponse 401 (Error "Invalid credentials"), s)
            else if negb (User.is_active user)
            then (mkResponse 401 (Error "Account is deactivated"), s)
            else
              (mkResponse 200
                 (Session "Login successful" (logged_in now user)
                    (User.id user) (User.id user)),
               update_user s (User.id user) (logged_in now))
        end
  end.

(** [POST /auth/refresh], under [@jwt_required(refresh=True)] *)
Definition refresh (g : G) (r : Request) (s : Store) : Outcome :=
  match get_jwt_identity g with
  | inl _ => (mkResponse 500 (Error "Internal server error"), s)
  | inr current_user_id =>
      match Db.get_user s current_user_id with
      | None => (mkResponse 401 (Error "User not found or inactive"), s)
      | Some user =>
          if negb (User.is_active user)
          then (mkResponse 401 (Error "User not found or inactive"), s)
          else (mkResponse 200 (AccessToken current_user_id), s)
      end
  end.

(** [GET /auth/me], under [@jwt_required()] *)
Definition get_current_user (g : G) (r : Request) (s : Store) : Outcome :=
  match get_jwt_identity g with
  | inl _ => (mkResponse 500 (Error "Internal server error"), s)
  | inr current_user_id =>
      match Db.get_user s current_user_id with
      | None => (mkResponse 404 (Error "User not found"), s)
      | Some user => (mkResponse 200 (Profile user), s)
      end
  end.

(** [POST /auth/logout], under [@jwt_required()] *)
Definition logout (g : G) (r : Request) (s : Store) : Outcome :=
  (mkResponse 200 (Message "Logout successful"), s).

(** [POST /auth/change-password], under [@jwt_required()] *)
Definition change_password (generate_password_hash : string -> string)
    (check_password_hash : string -> string -> bool) (now : DateTime)
    (data : option password_change) (g : G) (r : Request) (s : Store) : Outcome :=
  match get_jwt_identity g with
  | inl _ => (mkResponse 500 (Error "Internal server error"), s)
  | inr current_user_id =>
      match Db.get_user s current_user_id with
      | None => (mkResponse 404 (Error "User not found"), s)
      | Some user =>
          match data with
          | None => (mkResponse 400 (Error "No data provided"), s)
          | Some d =>
              if negb (truthy_change data)
              then (mkResponse 400 (Error "No data provided"), s)
              else if Json.missing (current_password d) || Json.missing (new_password d)
              then (mkResponse 400
                      (Error "Current password and new password are required"), s)
              else if negb (check_password_hash (User.password_hash user)
                              (Json.get_str (current_password d)))
              then (mkResponse 400 (Error "Current password is incorrect"), s)
              else
                (mkResponse 200 (Message "Password changed successfully"),
                 update_user s current_user_id
                   (with_password (generate_password_hash (Json.get_str (new_password d)))
                      now))
          end
      end
  end.

(** The views under their decorators.  [refresh_bearer] is the identity of
    the refresh token in the header when it holds a valid one, which
    [refresh] asks for; without one the request is refused, an access token
    included (422). *)
Definition login_route (check_password_hash : string -> string -> bool) (now : DateTime)
    (data : option credentials) : Request -> Store -> Outcome :=
  undecorated (login check_password_hash now data).

Definition refresh_route (refresh_bearer : option Id) (r : Request) (s : Store) : Outcome :=
  match refresh_bearer with
  | Some i => refresh (mkG (Some i)) r s
  | None =>
      match token r with
      | Access _ => refused 422 "Only refresh tokens are allowed" s
      | Unauthorized msg => refused 401 msg s
      | Unprocessable msg => refused 422 msg s
      end
  end.

Definition get_current_user_route : Request -> Store -> Outcome :=
  jwt_required_with refused get_current_user.

Definition logout_route : Request -> Store -> Outcome :=
  jwt_required_with refused logout.

Definition change_password_route (generate_password_hash : string -> string)
    (check_password_hash : string -> string -> bool) (now : DateTime)
    (data : option password_change) : Request -> Store -> Outcome :=
  jwt_required_with refused
    (change_password generate_password_hash check_password_hash now data).

End Account.

(** ** Vocabulary of the properties *)

(** A request with the valid access token of user [i], and one without
    [Authorization] header. *)
Definition as_user (i : Id) : Flask.Request := Flask.mkRequest (Flask.Access i) no_args.
Definition anonymous : Flask.Request :=
  Flask.mkRequest (Flask.Unauthorized "Missing Authorization Header") no_args.

Definition post_json (title content : string) : option Json.post :=
  Some (Json.mkPost (Some title) (Some content) None None None false).

(** The slug of the post a 201 response carries. *)
Definition created_slug (resp : Response) : option string :=
  match status resp, body resp with
  | 201, PostMessage _ pd => Some (Post.slug (pd_post pd))
  | _, _ => None
  end.

(** The [n]-th name the collision loop tries for a candidate: the bare
    candidate first, then [candidate-1], [candidate-2], ... *)
Definition numbered_slug (candidate : string) (n : nat) : string :=
  match n with
  | 0 => candidate
  | S _ => Py.fmt_dash candidate n
  end.

(** A slug is taken when some post row holds it. *)
Definition slug_taken (s : Store) (slug : string) : Prop :=
  In slug (map Post.slug (posts s)).

(** The row [create_post] builds once the loop has settled on the [j]-th
    name, and the store after its commit. *)
Definition created_post (s : Store) (now : DateTime) (d : Json.post) (uid : Id) (j : nat)
    : Post.t :=
  let is_published := default false (Json.is_published d) in
  Post.mk (next_uuid s) (Json.get_str (Json.title d)) (Json.get_str (Json.content d))
    (Json.get_str (Json.excerpt d))
    (numbered_slug (Api.slug_candidate (Json.slug d) (Json.get_str (Json.title d))) j)
    is_published (if is_published then Some now else None) now now uid.

Definition with_post (s : Store) (p : Post.t) : Store :=
  mkStore (users s) (posts s ++ [p]) (tags s) (comments s) (post_tags s) (S (next_uuid s)).

(** A creation request the handler accepts: a valid token, a title and a
    content that are present and not empty. *)
Definition accepted (d : Json.post) (r : Flask.Request) : Prop :=
  Flask.bearer r <> None
  /\ Json.missing (Json.title d) = false
  /\ Json.missing (Json.content d) = false.

(** A creation request of candidate [c], as (clock reading, body, request). *)
Definition creates (c : string) (q : DateTime * Json.post * Flask.Request) : Prop :=
  let '(_, d, r) := q in
  accepted d r /\ Api.slug_candidate (Json.slug d) (Json.get_str (Json.title d)) = c.

Definition post_call (q : DateTime * Json.post * Flask.Request)
    : DateTime * App.Call * Flask.Request :=
  let '(now, d, r) := q in (now, App.POST_api_posts (Some d), r).

(** The store with one post whose title is "a 1", and two creations of
    title "a" on it. *)
Definition store_with_a1 : Store :=
  mkStore [] [Post.mk 0 "a 1" "x" "" "a-1" false None 1 1 0] [] [] [] 1.

Definition two_posts_a : list (DateTime * Json.post * Flask.Request) :=
  [(2, Json.mkPost (Some "a") (Some "y") None None None false, as_user 0);
   (3, Json.mkPost (Some "a") (Some "z") None None None false, as_user 0)].

(** The two Hello World creations of the specification's scenario. *)
Definition hello_reqs : list (DateTime * Json.post * Flask.Request) :=
  [(1, Json.mkPost (Some "Hello World") (Some "x") None None None false, as_user 0);
   (2, Json.mkPost (Some "Hello World") (Some "y") None None None false, as_user 0)].

(** The characters the slug clean-up keeps. *)
Definition slug_char (c : ascii) : bool := Py.isalnum c || bool_decide (c = "-"%char).

Definition tag_json (name : string) : option Json.tag :=
  Some (Json.mkTag (Some name) None None false).

(** A tag slug is taken when some tag row holds it. *)
Definition tag_slug_taken (s : Store) (slug : string) : Prop :=
  In slug (map Tag.slug (tags s)).

(** What the database guarantees of a store: primary keys come from the
    supply, and each [unique=True] column holds no value twice. *)
Record consistent (s : Store) : Prop := mkConsistent {
  post_ids_fresh : Forall (fun p => Post.id p < next_uuid s) (posts s);
  post_slugs_unique : List.NoDup (map Post.slug (posts s));
  tag_names_unique : List.NoDup (map Tag.name (tags s));
  tag_slugs_unique : List.NoDup (map Tag.slug (tags s));
  usernames_unique : List.NoDup (map User.username (users s));
  emails_unique : List.NoDup (map User.email (users s))
}.

(** One PUT on post [pid], by any caller with any body at any time, takes
    the store from [s] to [s']. *)
Definition put_step (pid : Id) (s s' : Store) : Prop :=
  exists hash now data r resp,
    App.dispatch hash now (App.PUT_api_post pid data) r s = Some (resp, s').

(** Between the stores [s1] and [s2] of a run of PUTs, post [pid] was
    published at some point. *)
Definition ever_published (pid : Id) (s1 s2 : Store) : Prop :=
  exists s' q, rtc (put_step pid) s1 s' /\ rtc (put_step pid) s' s2
    /\ Db.get_post s' pid = Some q /\ Post.is_published q = true.

(** The value a body asks for [is_published], if it has the key. *)
Definition asks_published (data : option Json.post) : option bool :=
  match data with
  | Some d => Json.is_published d
  | None => None
  end.

(** A draft created by user 0 at clock reading 1. *)
Definition draft_request : option Json.post :=
  Some (Json.mkPost (Some "Hello World") (Some "x") None None None false).

(** Bodies that only set the flag. *)
Definition publish_body : option Json.post :=
  Some (Json.mkPost None None None (Some true) None false).
Definition unpublish_body : option Json.post :=
  Some (Json.mkPost None None None (Some false) None false).

(** The rule of the policy: the actor owns the post or is an admin. *)
Definition can_mutate (actor : User.t) (post : Post.t) : Prop :=
  User.id actor = Post.user_id post \/ User.is_admin actor = true.

(** Alice (user 1) owns post 10; Bob (user 2) is a regular user. *)
Definition blog : Store :=
  mkStore
    [User.mk 1 "alice" "alice@x.com" "h" "" "" true false 0 0 None;
     User.mk 2 "bob" "bob@x.com" "h" "" "" true false 0 0 None]
    [Post.mk 10 "Hello World" "x" "" "hello-world" false None 1 1 1]
    [] [] [] 11.

Definition comment_json (content : string) : option Json.comment :=
  Some (Json.mkComment (Some content) None None false).

(** The row [create_comment] stores: whatever the request carries, the view
    runs undecorated, [get_jwt_identity] raises, and [user_id] stays unset. *)
Definition anonymous_comment (s : Store) (now : DateTime) (pid : Id) (d : Json.comment)
    : Comment.t :=
  Comment.mk (next_uuid s) (Json.get_str (Json.comment_content d)) false
    (Json.get_str (Json.author_name d)) (Json.get_str (Json.author_email d))
    now pid None.

(** A comment with its approval flag set, everything else as it was. *)
Definition approved (c : Comment.t) : Comment.t :=
  Comment.mk (Comment.id c) (Comment.content c) true (Comment.author_name c)
    (Comment.author_email c) (Comment.created_at c) (Comment.post_id c) (Comment.user_id c).

(** Carol (user 3) is an admin; comment 20 on Alice's post is Bob's and
    pending. *)
Definition moderated_blog : Store :=
  mkStore
    [User.mk 1 "alice" "alice@x.com" "h" "" "" true false 0 0 None;
     User.mk 2 "bob" "bob@x.com" "h" "" "" true false 0 0 None;
     User.mk 3 "carol" "carol@x.com" "h" "" "" true true 0 0 None]
    [Post.mk 10 "Hello World" "x" "" "hello-world" true (Some 1) 1 1 1]
    []
    [Comment.mk 20 "first" false "" "" 2 10 (Some 2)]
    [] 21.

(** The request names the username or the email of an existing user. *)
Definition duplicate (s : Store) (d : Json.user) : Prop :=
  (exists u, Json.username d = Some u /\ In u (map User.username (users s)))
  \/ (exists e, Json.email d = Some e /\ In e (map User.email (users s))).

(** The request passes the checks that come before the duplicate checks. *)
Definition passes_validation (d : Json.user) : Prop :=
  Json.missing (Json.username d) = false
  /\ Json.missing (Json.email d) = false
  /\ Json.missing (Json.password d) = false
  /\ Auth.validate_email (Json.get_str (Json.email d)) = true.










Definition page_size (per_page : Z) : nat :=
  Z.to_nat (if (per_page <? 1)%Z then 20%Z else per_page).







(** Newest first: no later row is newer. *)
Definition newer_first (a b : Comment.t) : Prop :=
  Comment.created_at b <= Comment.created_at a.

(** The rows created at clock reading [t], in the order of the list. *)
Definition created_at_is (t : DateTime) (l : list Comment.t) : list Comment.t :=
  List.filter (fun c => Comment.created_at c =? t) l.

(** The rows the admin listing sorts. *)
Definition moderation_rows (r : Flask.Request) (s : Store) : list Comment.t :=
  if Flask.flag_arg (arg_approved_only (Flask.args r)) "false"
  then List.filter Comment.is_approved (comments s)
  else comments s.


(** Two approved comments on post 10, the older one inserted first. *)
Definition two_comments : Store :=
  mkStore
    [User.mk 1 "alice" "alice@x.com" "h" "" "" true false 0 0 None;
     User.mk 3 "carol" "carol@x.com" "h" "" "" true true 0 0 None]
    [Post.mk 10 "Hello World" "x" "" "hello-world" true (Some 1) 1 1 1]
    []
    [Comment.mk 11 "first" true "" "" 2 10 None;
     Comment.mk 12 "second" true "" "" 3 10 None]
    [] 13.

(** The characters of a string, in order. *)
Fixpoint chars (s : string) : list ascii :=
  match s with
  | EmptyString => []
  | String c r => c :: chars r
  end.

(** The first and the last character of a string. *)
Definition first_char (s : string) : option ascii := head (chars s).
Definition last_char (s : string) : option ascii := last (chars s).

(** The seed the slug clean-up starts from when the caller gives no slug. *)
Definition title_seed (title : string) : string :=
  Py.replace "_" "-" (Py.replace " " "-" (Py.lower title)).

(** A served creation and an approval, from the empty database. *)
Definition small_session : list (DateTime * App.Call * Flask.Request) :=
  [(1, App.POST_auth_register
         (Some (Json.mkUser (Some "alice") (Some "alice@x.com") (Some "pw123")
                  None None false)), anonymous);
   (2, App.POST_api_posts (post_json "Hello World" "x"), as_user 0);
   (3, App.POST_api_tags (tag_json "News"), as_user 0);
   (4, App.POST_api_post_comments 1 (comment_json "first"), anonymous)].

(** The columns of a post that no update writes. *)
Definition post_identity (p : Post.t) : Id * string * Id * DateTime :=
  (Post.id p, Post.slug p, Post.user_id p, Post.created_at p).

(** The ids of the admins, in table order. *)
Definition admin_ids (s : Store) : list Id :=
  map User.id (List.filter User.is_admin (users s)).

(** The request comes with a valid token of an admin of the store. *)
Definition caller_is_admin (r : Flask.Request) (s : Store) : Prop :=
  exists uid u, Flask.bearer r = Some uid /\ Db.get_user s uid = Some u
    /\ User.is_admin u = true.

(** What GET /api/v1/posts/<pid>/comments lists. *)
Definition public_comments (pid : Id) (s : Store) : list Comment.t :=
  List.filter (fun c => bool_decide (Comment.post_id c = pid) && Comment.is_approved c)
    (comments s).


(** A request for one page of a listing. *)
Definition page_request (page per_page : Z) : Flask.Request :=
  Flask.mkRequest (Flask.Unauthorized "Missing Authorization Header")
    (mkArgs (Some page) (Some per_page) None None None).

(** The users GET /api/v1/admin/users puts on a page, and the number of
    pages it reports. *)
Definition users_page (page per_page : Z) (s : Store) : list User.t :=
  match body (fst (Api.get_all_users (Flask.mkG None) (page_request page per_page) s)) with
  | UserPage l _ _ _ => l
  | _ => []
  end.

Definition users_pages (per_page : Z) (s : Store) : nat :=
  match body (fst (Api.get_all_users (Flask.mkG None) (page_request 1 per_page) s)) with
  | UserPage _ _ pages _ => pages
  | _ => 0
  end.

(** One line feed. *)
Definition newline : string := String "010"%char EmptyString.

(** An address [local@domain.tld]: a local part and a domain that are not
    empty and made of the characters of their classes, and a last label of
    two letters or more. *)
Definition well_formed_email (x : string) : Prop :=
  exists loc dom tld,
    x = loc +:+ String "@"%char (dom +:+ String "."%char tld)
    /\ loc <> EmptyString
    /\ Forall (fun c => Auth.local_char c = true) (chars loc)
    /\ dom <> EmptyString
    /\ Forall (fun c => Auth.domain_char c = true) (chars dom)
    /\ Forall (fun c => Auth.ascii_letter c = true) (chars tld)
    /\ 2 <= String.length tld.

(** The row [register] inserts for the request [d]. *)
Definition registered_user (gen : string -> string) (now : DateTime) (s : Store)
    (d : Json.user) : User.t :=
  User.mk (next_uuid s) (Json.get_str (Json.username d)) (Json.get_str (Json.email d))
    (gen (Json.get_str (Json.password d)))
    (Json.get_str (Json.first_name d)) (Json.get_str (Json.last_name d))
    true false now now None.

(** The store after the insert of user [u]. *)
Definition with_user (s : Store) (u : User.t) : Store :=
  mkStore (users s ++ [u]) (posts s) (tags s) (comments s) (post_tags s) (S (next_uuid s)).

(** A registration that is served: it passes the validation and repeats
    no username and no email. *)
Definition registrable (s : Store) (data : option Json.user) : Prop :=
  exists d, data = Some d /\ passes_validation d /\ ~ duplicate s d.

(** The bodies [login] and [change_password] read. *)
Definition login_json (x p : string) : option Account.credentials :=
  Some (Account.mkCredentials (Some x) (Some p) false).

Definition change_json (old new : string) : option Account.password_change :=
  Some (Account.mkPasswordChange (Some old) (Some new) false).

(** The columns that identify a user and decide what they may do. *)
Definition credential_columns (u : User.t) : Id * string * string * string * bool * bool :=
  (User.id u, User.username u, User.email u, User.password_hash u,
   User.is_active u, User.is_admin u).


(** * Properties *)

(** ** Worked requests *)

Example validate_email_ok : Auth.validate_email "alice@x.com" = true.
Proof. reflexivity. Qed.
Example validate_email_bad : Auth.validate_email "alice@x" = false.
Proof. reflexivity. Qed.
Example validate_email_dots : Auth.validate_email "a.b+c@mail.example.org" = true.
Proof. reflexivity. Qed.
Example slug_ex : Api.slug_candidate None "Hello World" = "hello-world".
Proof. reflexivity. Qed.
Example slug_ex2 : Api.slug_candidate None "  My_Post: v2!  " = "my-post-v2".
Proof. reflexivity. Qed.
Example slug_ex3 : Api.slug_candidate (Some "Keep-Case") "t" = "Keep-Case".
Proof. reflexivity. Qed.

(** The scenario of the specification: two posts titled Hello World. *)
Example hello_world_twice :
  option_map (fun o => map created_slug (fst o))
    (App.serve (fun p => p)
       [(1, App.POST_api_posts (post_json "Hello World" "x"), as_user 0);
        (2, App.POST_api_posts (post_json "Hello World" "y"), as_user 0)]
       empty_store)
  = Some [Some "hello-world"; Some "hello-world-1"].
Proof. vm_compute. reflexivity. Qed.

(** ** The token check *)

Section TokenCheck.

Context {A : Type}.
Variable refuse : nat -> string -> Store -> A.
Variable view : Flask.G -> Flask.Request -> Store -> A.

Lemma bearer_access r i : Flask.bearer r = Some i -> Flask.token r = Flask.Access i.
Proof. unfold Flask.bearer. destruct (Flask.token r); congruence. Qed.

Lemma jwt_required_with_valid r s i :
  Flask.bearer r = Some i ->
  Flask.jwt_required_with refuse view r s = view (Flask.mkG (Some i)) r s.
Proof. intros H. unfold Flask.jwt_required_with. now rewrite (bearer_access r i H). Qed.

Lemma jwt_required_with_refused r s :
  Flask.bearer r = None ->
  exists st msg, (st = 401 \/ st = 422)
    /\ Flask.jwt_required_with refuse view r s = refuse st msg s.
Proof.
  unfold Flask.bearer, Flask.jwt_required_with.
  destruct (Flask.token r) as [i|msg|msg]; [discriminate| |]; intros _;
    [exists 401, msg | exists 422, msg]; auto.
Qed.

End TokenCheck.

Lemma jwt_required_valid {A} (ret : Outcome -> A) view r s i :
  Flask.bearer r = Some i ->
  Flask.jwt_required ret view r s = view (Flask.mkG (Some i)) r s.
Proof. apply jwt_required_with_valid. Qed.

Lemma jwt_required_refused {A} (ret : Outcome -> A) view r s :
  Flask.bearer r = None ->
  exists st msg, (st = 401 \/ st = 422)
    /\ Flask.jwt_required ret view r s = ret (mkResponse st (Msg msg), s).
Proof.
  intros H. unfold Flask.jwt_required.
  destruct (jwt_required_with_refused
              (fun st msg s => ret (mkResponse st (Msg msg), s)) view r s H)
    as (st & msg & Hst & ->).
  now exists st, msg.
Qed.

(** ** Strings and the numbered slugs *)

Section StringFacts.

Lemma append_cons c (a b : string) : String c a +:+ b = String c (a +:+ b).
Proof. reflexivity. Qed.

Lemma append_inj_r (a x y : string) : a +:+ x = a +:+ y -> x = y.
Proof.
  induction a as [|c a IH]; intros H.
  - exact H.
  - rewrite !append_cons in H. injection H as H. auto.
Qed.

Lemma length_append (a b : string) :
  String.length (a +:+ b) = String.length a + String.length b.
Proof.
  induction a as [|c a IH]; [reflexivity|].
  rewrite append_cons. simpl. now rewrite IH.
Qed.

Lemma fmt_dash_inj c n m : Py.fmt_dash c n = Py.fmt_dash c m -> n = m.
Proof.
  unfold Py.fmt_dash. intros H.
  apply append_inj_r in H. apply (append_inj_r "-") in H.
  now apply (inj pretty) in H.
Qed.

Lemma fmt_dash_longer c n : String.length c < String.length (Py.fmt_dash c n).
Proof.
  unfold Py.fmt_dash. rewrite !length_append. simpl. lia.
Qed.

Lemma numbered_slug_inj c n m : numbered_slug c n = numbered_slug c m -> n = m.
Proof.
  destruct n as [|n], m as [|m]; simpl; intros H.
  - reflexivity.
  - pose proof (fmt_dash_longer c (S m)) as L. rewrite <- H in L. lia.
  - pose proof (fmt_dash_longer c (S n)) as L. rewrite H in L. lia.
  - now apply fmt_dash_inj in H.
Qed.

End StringFacts.

(** ** The collision loop *)

Section SlugLoop.

Variable s : Store.
Variable c : string.

Lemma found_taken slug :
  Py.found (Db.post_by_slug s slug) = true <-> slug_taken s slug.
Proof.
  unfold Db.post_by_slug, Db.first, slug_taken. split.
  - destruct (find _ _) as [p|] eqn:E; [|discriminate]. intros _.
    apply find_some in E as [Hin Hp]. apply bool_decide_eq_true in Hp.
    rewrite <- Hp. now apply in_map.
  - intros Hin. apply in_map_iff in Hin as (p & Hp & Hin).
    destruct (find _ _) as [q|] eqn:E; [reflexivity|].
    eapply find_none in E; [|exact Hin]. simpl in E.
    apply bool_decide_eq_false in E. contradiction.
Qed.

Lemma taken_dec slug : {slug_taken s slug} + {~ slug_taken s slug}.
Proof. apply in_dec. intros x y. exact (decide (x = y)). Qed.

Lemma found_free slug :
  Py.found (Db.post_by_slug s slug) = false <-> ~ slug_taken s slug.
Proof.
  rewrite <- found_taken. destruct (Py.found _); split; congruence.
Qed.

(** Started on the [k]-th name, the loop returns the first free name from
    [k] on, given one iteration more than the names it has to skip. *)
Lemma unique_slug_loop_first_free fuel k j :
  k <= j -> j - k < fuel ->
  (forall i, k <= i < j -> slug_taken s (numbered_slug c i)) ->
  ~ slug_taken s (numbered_slug c j) ->
  Api.unique_slug_loop fuel s c (numbered_slug c k) (S k) = Some (numbered_slug c j).
Proof.
  revert k. induction fuel as [|fuel IH]; intros k Hkj Hfuel Htaken Hfree; [lia|].
  simpl. destruct (Py.found _) eqn:E.
  - apply found_taken in E.
    assert (k <> j) by (intros ->; contradiction).
    change (Py.fmt_dash c (S k)) with (numbered_slug c (S k)).
    apply IH; [lia | lia | | exact Hfree].
    intros i Hi. apply Htaken. lia.
  - apply found_free in E.
    destruct (decide (k = j)) as [->|Hne]; [reflexivity|].
    exfalso. apply E, Htaken. lia.
Qed.

(** Among the first [n + 1] names one is free when the table has [n]
    rows: the names are pairwise distinct. *)
Lemma some_name_free :
  exists j, j <= length (posts s) /\ ~ slug_taken s (numbered_slug c j).
Proof.
  set (n := length (posts s)).
  set (names := map (numbered_slug c) (seq 0 (S n))).
  destruct (List.Forall_Exists_dec (slug_taken s) taken_dec names) as [Hall|Hnot].
  - exfalso.
    assert (List.NoDup names) as Hnd.
    { unfold names. apply Injective_map_NoDup; [|apply List.seq_NoDup].
      intros x y. apply numbered_slug_inj. }
    assert (incl names (map Post.slug (posts s))) as Hincl.
    { intros x Hx. rewrite List.Forall_forall in Hall. now apply Hall. }
    pose proof (List.NoDup_incl_length Hnd Hincl) as Hlen.
    unfold names in Hlen. rewrite !length_map, length_seq in Hlen.
    fold n in Hlen. lia.
  - apply List.Exists_exists in Hnot as (x & Hx & Hfree).
    unfold names in Hx. apply in_map_iff in Hx as (j & <- & Hj).
    apply in_seq in Hj. exists j. split; [lia | exact Hfree].
Qed.

(** The least free name. *)
Lemma first_free_name :
  exists j, j <= length (posts s)
    /\ ~ slug_taken s (numbered_slug c j)
    /\ forall i, i < j -> slug_taken s (numbered_slug c i).
Proof.
  destruct some_name_free as (j & Hj & Hfree).
  revert Hj Hfree. induction j as [j IH] using lt_wf_ind. intros Hj Hfree.
  destruct (List.Forall_Exists_dec (fun i => slug_taken s (numbered_slug c i))
              (fun i => taken_dec (numbered_slug c i)) (seq 0 j)) as [Hall|Hnot].
  - exists j. repeat split; [exact Hj | exact Hfree |].
    intros i Hi. rewrite List.Forall_forall in Hall. apply Hall, in_seq. lia.
  - apply List.Exists_exists in Hnot as (i & Hi & Hfree').
    apply in_seq in Hi. apply (IH i); [lia | lia | exact Hfree'].
Qed.

(** The loop of [create_post] always ends, on the least free name. *)
Lemma unique_slug_total :
  exists j, Api.unique_slug s c = Some (numbered_slug c j)
    /\ ~ slug_taken s (numbered_slug c j)
    /\ forall i, i < j -> slug_taken s (numbered_slug c i).
Proof.
  destruct first_free_name as (j & Hj & Hfree & Htaken).
  exists j. repeat split; [|exact Hfree|exact Htaken].
  unfold Api.unique_slug.
  apply (unique_slug_loop_first_free _ 0 j); [lia | lia | | exact Hfree].
  intros i Hi. apply Htaken. lia.
Qed.

End SlugLoop.

(** ** Post creation *)

Lemma accepted_truthy d r : accepted d r -> Json.truthy_post (Some d) = true.
Proof.
  intros (_ & Ht & _). unfold Json.missing in Ht. simpl.
  destruct (Json.title d); [reflexivity | discriminate].
Qed.

(** An accepted creation is always served: 201, with the least free
    numbered slug of its candidate. *)
Lemma create_post_served hash now d r s :
  accepted d r ->
  exists uid j,
    Flask.bearer r = Some uid
    /\ ~ slug_taken s (numbered_slug (Api.slug_candidate (Json.slug d)
                                       (Json.get_str (Json.title d))) j)
    /\ (forall i, i < j ->
          slug_taken s (numbered_slug (Api.slug_candidate (Json.slug d)
                                         (Json.get_str (Json.title d))) i))
    /\ App.dispatch hash now (App.POST_api_posts (Some d)) r s
       = Some (mkResponse 201
                 (PostMessage "Post created successfully"
                    (post_to_dict (with_post s (created_post s now d uid j))
                       (created_post s now d uid j))),
               with_post s (created_post s now d uid j)).
Proof.
  intros Hacc. pose proof (accepted_truthy _ _ Hacc) as Htruthy.
  destruct Hacc as (Hb & Ht & Hc).
  destruct (Flask.bearer r) as [uid|] eqn:Hr; [|contradiction].
  destruct (unique_slug_total s (Api.slug_candidate (Json.slug d) (Json.get_str (Json.title d))))
    as (j & Hloop & Hfree & Htaken).
  exists uid, j. repeat split; [exact Hfree | exact Htaken |].
  unfold App.dispatch. rewrite (jwt_required_valid _ _ _ _ _ Hr).
  unfold Api.create_post. simpl Flask.get_jwt_identity. cbv iota.
  rewrite Htruthy, Ht, Hc. cbv [negb]. cbv iota zeta.
  rewrite Hloop.
  unfold Db.add_post. cbn [Post.slug].
  apply (found_free s) in Hfree. rewrite Hfree. reflexivity.
Qed.

(** Every request is answered: the slug loop never runs out of fuel. *)
Lemma dispatch_total hash now c r s : exists o, App.dispatch hash now c r s = Some o.
Proof.
  destruct c; simpl; eauto.
  unfold Flask.jwt_required, Flask.jwt_required_with.
  destruct (Flask.token r) as [uid|msg|msg]; [|eauto|eauto].
  unfold Api.create_post, Flask.get_jwt_identity. cbn [Flask.jwt_identity].
  destruct data as [d|]; [|eauto].
  destruct (negb _); [eauto|].
  destruct (Json.missing (Json.title d)); [eauto|].
  destruct (Json.missing (Json.content d)); [eauto|].
  cbv zeta.
  destruct (unique_slug_total s (Api.slug_candidate (Json.slug d) (Json.get_str (Json.title d))))
    as (j & -> & _).
  match goal with |- context [Db.add_post ?a ?b] => destruct (Db.add_post a b) end; eauto.
Qed.

Lemma taken_with_post s p slug :
  slug_taken (with_post s p) slug <-> slug_taken s slug \/ slug = Post.slug p.
Proof.
  unfold slug_taken, with_post. simpl posts. rewrite map_app, in_app_iff. simpl.
  intuition congruence.
Qed.

Lemma serve_creates hash c reqs : forall s k,
  Forall (creates c) reqs ->
  (forall i, i < k -> slug_taken s (numbered_slug c i)) ->
  (forall i, k <= i < k + length reqs -> ~ slug_taken s (numbered_slug c i)) ->
  exists resps s',
    App.serve hash (map post_call reqs) s = Some (resps, s')
    /\ map created_slug resps = map (fun i => Some (numbered_slug c i)) (seq k (length reqs)).
Proof.
  induction reqs as [|[[now d] r] reqs IH]; intros s k Hall Htaken Hfree.
  - exists [], s. split; reflexivity.
  - apply Forall_cons_1 in Hall as [[Hacc Hc] Hall].
    destruct (create_post_served hash now d r s Hacc) as (uid & j & Hr & Hjfree & Hjtaken & Hd).
    rewrite Hc in Hjfree, Hjtaken.
    assert (j = k) as ->.
    { destruct (lt_eq_lt_dec j k) as [[Hlt|Heq]|Hgt]; [|exact Heq|].
      - exfalso. apply Hjfree, Htaken, Hlt.
      - exfalso. apply (Hfree k); [simpl; lia | apply Hjtaken, Hgt]. }
    set (p := created_post s now d uid k) in *.
    assert (Post.slug p = numbered_slug c k) as Hslug.
    { unfold p, created_post. cbn [Post.slug]. now rewrite Hc. }
    destruct (IH (with_post s p) (S k) Hall) as (resps & s' & Hserve & Hslugs).
    + intros i Hi. apply taken_with_post.
      destruct (decide (i = k)) as [->|Hne]; [right; now rewrite Hslug|].
      left. apply Htaken. lia.
    + intros i Hi Hin. apply taken_with_post in Hin as [Hin|Hin].
      * apply (Hfree i); [simpl; lia | exact Hin].
      * rewrite Hslug in Hin. apply numbered_slug_inj in Hin. lia.
    + exists (mkResponse 201 (PostMessage "Post created successfully"
                               (post_to_dict (with_post s p) p)) :: resps), s'.
      split.
      * simpl map. cbn [App.serve post_call]. rewrite Hd, Hserve. reflexivity.
      * cbn [map length seq created_slug status body pd_post post_to_dict].
        rewrite Hslug, Hslugs. reflexivity.
Qed.

Example store_with_a1_reachable :
  option_map snd
    (App.serve (fun p => p) [(1, App.POST_api_posts (post_json "a 1" "x"), as_user 0)] empty_store)
  = Some store_with_a1.
Proof. vm_compute. reflexivity. Qed.

(** C1, amended.  The candidate of a creation is the caller's non-empty
    slug, or else the lower-cased title with spaces and underscores turned
    into hyphens, in both cases with every character that is not
    alphanumeric or a hyphen removed and the hyphens at both ends trimmed.
    An accepted creation is always served, with the first of the names
    candidate, candidate-1, candidate-2, ... that no post holds.  So when
    none of candidate, candidate-1, ..., candidate-(N-1) is held by a post
    of the store, N accepted creations of that candidate in a row are all
    served, and the k-th of them (from 1) receives the slug candidate-(k-1),
    the first the bare candidate. *)
Theorem create_post_numbered_slugs hash s c reqs :
  Forall (creates c) reqs ->
  (forall i, i < length reqs -> ~ slug_taken s (numbered_slug c i)) ->
  (exists resps s',
     App.serve hash (map post_call reqs) s = Some (resps, s')
     /\ map created_slug resps
        = map (fun i => Some (numbered_slug c i)) (seq 0 (length reqs)))
  /\ (forall title,
        Api.slug_candidate None title
        = Py.strip "-" (Py.join_if slug_char
                          (Py.replace "_" "-" (Py.replace " " "-" (Py.lower title)))))
  /\ (forall slug title,
        slug <> "" ->
        Api.slug_candidate (Some slug) title = Py.strip "-" (Py.join_if slug_char slug))
  /\ (forall now d r s0,
        accepted d r ->
        exists j resp s',
          App.dispatch hash now (App.POST_api_posts (Some d)) r s0 = Some (resp, s')
          /\ created_slug resp
             = Some (numbered_slug (Api.slug_candidate (Json.slug d)
                                      (Json.get_str (Json.title d))) j)
          /\ ~ slug_taken s0 (numbered_slug (Api.slug_candidate (Json.slug d)
                                               (Json.get_str (Json.title d))) j)
          /\ (forall i, i < j ->
                slug_taken s0 (numbered_slug (Api.slug_candidate (Json.slug d)
                                                (Json.get_str (Json.title d))) i))).
Proof.
  intros Hall Hfree. split; [|split; [|split]].
  - apply serve_creates; [exact Hall | intros i Hi; lia |].
    intros i Hi. apply Hfree. lia.
  - reflexivity.
  - intros slug title Hne. unfold Api.slug_candidate, Py.or_else.
    destruct slug; [contradiction | reflexivity].
  - intros now d r s0 Hacc.
    destruct (create_post_served hash now d r s0 Hacc)
      as (uid & j & _ & Hjfree & Hjtaken & Hd).
    exists j. do 2 eexists. split; [exact Hd|]. split; [reflexivity|].
    split; [exact Hjfree | exact Hjtaken].
Qed.

Lemma create_post_numbered_slugs_witness :
  Forall (creates "hello-world") hello_reqs
  /\ (forall i, i < length hello_reqs ->
        ~ slug_taken empty_store (numbered_slug "hello-world" i))
  /\ exists resps s',
       App.serve (fun p => p) (map post_call hello_reqs) empty_store = Some (resps, s')
       /\ map created_slug resps = [Some "hello-world"; Some "hello-world-1"].
Proof.
  assert (Forall (creates "hello-world") hello_reqs) as Hall.
  { repeat constructor; try discriminate. }
  assert (forall i, i < length hello_reqs ->
            ~ slug_taken empty_store (numbered_slug "hello-world" i)) as Hfree.
  { intros i _ Hin. exact Hin. }
  split; [exact Hall | split; [exact Hfree|]].
  destruct (create_post_numbered_slugs (fun p => p) empty_store "hello-world" hello_reqs
              Hall Hfree) as [(resps & s' & Hserve & Hslugs) _].
  exists resps, s'. split; [exact Hserve | exact Hslugs].
Defined.

(** C1 as stated fails when a numbered name is already held: on a store
    whose only post is titled "a 1" (slug a-1), the candidate "a" is free,
    the first post titled "a" receives "a", and the second receives "a-2",
    not "a-1". *)
Lemma create_post_numbered_slugs_counterexample :
  Forall (creates "a") two_posts_a
  /\ ~ slug_taken store_with_a1 "a"
  /\ option_map (fun o => map created_slug (fst o))
       (App.serve (fun p => p) (map post_call two_posts_a) store_with_a1)
     = Some [Some "a"; Some "a-2"]
  /\ [Some "a"; Some "a-2"]
     <> map (fun i => Some (numbered_slug "a" i)) (seq 0 (length two_posts_a)).
Proof.
  split; [|split; [|split]].
  - repeat constructor; try discriminate.
  - unfold slug_taken. simpl. intros [H|[]]. discriminate.
  - vm_compute. reflexivity.
  - vm_compute. discriminate.
Qed.

(** ** Tag creation *)

Lemma tag_found_taken s slug :
  tag_slug_taken s slug -> Py.found (Db.tag_by_slug s slug) = true.
Proof.
  unfold tag_slug_taken, Db.tag_by_slug, Db.first. intros Hin.
  apply in_map_iff in Hin as (t & Ht & Hin).
  destruct (find _ _) as [q|] eqn:E; [reflexivity|].
  eapply find_none in E; [|exact Hin]. simpl in E.
  apply bool_decide_eq_false in E. contradiction.
Qed.

(** [create_tag] has no collision loop: a new name whose candidate is held
    by another tag goes to the commit, which the unique slug column
    refuses; nothing is stored. *)
Lemma create_tag_taken_slug hash now d name r s :
  Flask.bearer r <> None ->
  Json.name d = Some name ->
  Db.tag_by_name s name = None ->
  tag_slug_taken s (Api.slug_candidate (Json.tag_slug d) name) ->
  App.dispatch hash now (App.POST_api_tags (Some d)) r s
  = Some (mkResponse 500 (Error "Failed to create tag"), s).
Proof.
  intros Hb Hname Hnew Htaken.
  unfold App.dispatch.
  destruct (Flask.bearer r) as [uid|] eqn:Hr; [|contradiction].
  rewrite (jwt_required_valid _ _ _ _ _ Hr).
  unfold Api.create_tag. simpl Json.truthy_tag. rewrite Hname. simpl.
  rewrite Hnew. simpl.
  unfold Db.add_tag. cbn [Tag.name Tag.slug]. rewrite Hnew. simpl.
  now rewrite (tag_found_taken _ _ Htaken).
Qed.

(** C2, at the failing input.  Two tags with the distinct names
    "Hello World" and "hello world" have the candidate "hello-world"; the
    first creation is served with that slug, the second is answered 500 and
    stores no tag. *)
Theorem create_tag_collision_refused :
  App.serve (fun p => p)
    [(1, App.POST_api_tags (tag_json "Hello World"), as_user 0);
     (2, App.POST_api_tags (tag_json "hello world"), as_user 0)]
    empty_store
  = Some ([mkResponse 201 (TagMessage "Tag created successfully"
                             (Tag.mk 0 "Hello World" "hello-world" "" 1));
           mkResponse 500 (Error "Failed to create tag")],
          mkStore [] [] [Tag.mk 0 "Hello World" "hello-world" "" 1] [] [] 1).
Proof.
  set (s1 := mkStore [] [] [Tag.mk 0 "Hello World" "hello-world" "" 1] [] [] 1).
  assert (App.dispatch (fun p => p) 2 (App.POST_api_tags (tag_json "hello world"))
            (as_user 0) s1
          = Some (mkResponse 500 (Error "Failed to create tag"), s1)) as Hsecond.
  { apply create_tag_taken_slug with (name := "hello world").
    - discriminate.
    - reflexivity.
    - reflexivity.
    - left. reflexivity. }
  cbn [App.serve]. change (App.dispatch (fun p => p) 1 _ _ empty_store)
    with (Some (mkResponse 201 (TagMessage "Tag created successfully"
                                  (Tag.mk 0 "Hello World" "hello-world" "" 1)), s1)).
  cbv iota beta. rewrite Hsecond. reflexivity.
Qed.

(** ** The constraints of the schema *)

Lemma empty_store_consistent : consistent empty_store.
Proof. split; simpl; constructor. Qed.

Section Columns.

Context {A B : Type} `{EqDecision B}.
Variable col : A -> B.

Lemma first_col_found (rows : list A) (v : B) :
  Py.found (Db.first (fun x => bool_decide (col x = v)) rows) = true <-> In v (map col rows).
Proof.
  unfold Db.first. split.
  - destruct (find _ _) as [x|] eqn:E; [|discriminate]. intros _.
    apply find_some in E as [Hin Hx]. apply bool_decide_eq_true in Hx.
    rewrite <- Hx. now apply in_map.
  - intros Hin. apply in_map_iff in Hin as (x & Hx & Hin).
    destruct (find _ _) as [y|] eqn:E; [reflexivity|].
    eapply find_none in E; [|exact Hin]. simpl in E.
    apply bool_decide_eq_false in E. contradiction.
Qed.

Lemma first_col_none (rows : list A) (v : B) :
  Py.found (Db.first (fun x => bool_decide (col x = v)) rows) = false -> ~ In v (map col rows).
Proof.
  intros E Hin. apply first_col_found in Hin. congruence.
Qed.

(** Appending a row with a value the column does not hold keeps it unique. *)
Lemma unique_append (rows : list A) (x : A) :
  List.NoDup (map col rows) -> ~ In (col x) (map col rows) ->
  List.NoDup (map col (rows ++ [x])).
Proof.
  intros Hnd Hnew. rewrite map_app. simpl.
  apply List.NoDup_app; [exact Hnd | repeat constructor; intros [] |].
  intros v Hv [<-|[]]. contradiction.
Qed.

(** Deleting rows keeps a column unique. *)
Lemma unique_filter (keep : A -> bool) (rows : list A) :
  List.NoDup (map col rows) -> List.NoDup (map col (List.filter keep rows)).
Proof.
  induction rows as [|x rows IH]; simpl; intros Hnd; [constructor|].
  apply List.NoDup_cons_iff in Hnd as [Hx Hnd].
  destruct (keep x); simpl; [|auto].
  constructor; [|auto].
  intros Hin. apply Hx. apply in_map_iff in Hin as (y & Hy & Hin).
  apply List.filter_In in Hin as [Hin _]. rewrite <- Hy. now apply in_map.
Qed.

(** Attribute writes that leave a column alone leave its values alone. *)
Lemma col_update (f : A -> A) (hit : A -> bool) (rows : list A) :
  (forall x, col (f x) = col x) ->
  map col (map (fun x => if hit x then f x else x) rows) = map col rows.
Proof.
  intros Hf. rewrite map_map. apply map_ext. intros x.
  destruct (hit x); [apply Hf | reflexivity].
Qed.

End Columns.

Section Preservation.

Lemma add_post_consistent s p s' :
  consistent s -> Post.id p = next_uuid s -> Db.add_post s p = Some s' -> consistent s'.
Proof.
  intros [Hids Hslugs Htn Hts Hun Hem] Hid. unfold Db.add_post.
  destruct (Py.found _) eqn:E; [discriminate|]. intros [= <-].
  split; simpl; try assumption.
  - apply Forall_app. split.
    + eapply Forall_impl; [exact Hids|]. simpl. intros q Hq. lia.
    + constructor; [lia | constructor].
  - apply unique_append; [exact Hslugs|]. now apply first_col_none.
Qed.

Lemma add_tag_consistent s t s' :
  consistent s -> Db.add_tag s t = Some s' -> consistent s'.
Proof.
  intros [Hids Hslugs Htn Hts Hun Hem]. unfold Db.add_tag.
  destruct (Py.found (Db.tag_by_name _ _)) eqn:E1; [discriminate|].
  destruct (Py.found (Db.tag_by_slug _ _)) eqn:E2; [discriminate|]. intros [= <-].
  split; simpl; try assumption.
  - eapply Forall_impl; [exact Hids|]. simpl. intros q Hq. lia.
  - apply unique_append; [exact Htn|]. now apply first_col_none.
  - apply unique_append; [exact Hts|]. now apply first_col_none.
Qed.

Lemma add_user_consistent s u s' :
  consistent s -> Db.add_user s u = Some s' -> consistent s'.
Proof.
  intros [Hids Hslugs Htn Hts Hun Hem]. unfold Db.add_user.
  destruct (Py.found (Db.user_by_username _ _)) eqn:E1; [discriminate|].
  destruct (Py.found (Db.user_by_email _ _)) eqn:E2; [discriminate|]. intros [= <-].
  split; simpl; try assumption.
  - eapply Forall_impl; [exact Hids|]. simpl. intros q Hq. lia.
  - apply unique_append; [exact Hun|]. now apply first_col_none.
  - apply unique_append; [exact Hem|]. now apply first_col_none.
Qed.

Lemma add_comment_consistent s c : consistent s -> consistent (Db.add_comment s c).
Proof.
  intros [Hids Hslugs Htn Hts Hun Hem]. split; simpl; try assumption.
  eapply Forall_impl; [exact Hids|]. simpl. intros q Hq. lia.
Qed.

Lemma update_post_consistent s i f :
  (forall p, Post.id (f p) = Post.id p) -> (forall p, Post.slug (f p) = Post.slug p) ->
  consistent s -> consistent (Db.update_post s i f).
Proof.
  intros Hid Hslug [Hids Hslugs Htn Hts Hun Hem]. split; simpl; try assumption.
  - apply Forall_map. eapply Forall_impl; [exact Hids|]. simpl. intros p Hp.
    destruct (bool_decide _); [now rewrite Hid | exact Hp].
  - now rewrite (col_update Post.slug f).
Qed.

Lemma update_comment_consistent s i f : consistent s -> consistent (Db.update_comment s i f).
Proof. intros [Hids Hslugs Htn Hts Hun Hem]. split; simpl; assumption. Qed.

Lemma delete_post_consistent s i : consistent s -> consistent (Db.delete_post s i).
Proof.
  intros [Hids Hslugs Htn Hts Hun Hem]. split; simpl; try assumption.
  - apply List.Forall_forall. intros p Hp. apply List.filter_In in Hp as [Hp _].
    rewrite List.Forall_forall in Hids. now apply Hids.
  - now apply unique_filter.
Qed.

(** Every request leaves the constraints in force. *)
Lemma dispatch_consistent hash now c r s resp s' :
  consistent s -> App.dispatch hash now c r s = Some (resp, s') -> consistent s'.
Proof.
  intros Hs. destruct c; simpl;
    unfold Flask.undecorated, Flask.jwt_required, Api.admin_required, Flask.jwt_required,
      Flask.jwt_required_with,
      Api.get_posts, Api.create_post, Api.get_post, Api.update_post, Api.delete_post,
      Api.get_tags, Api.create_tag, Api.get_post_comments, Api.create_comment,
      Api.get_all_users, Api.get_all_comments, Api.approve_comment,
      Main.get_posts, Main.get_post, Main.get_tags, Main.get_posts_by_tag, Main.list_filter_by,
      Auth.register;
    intros H; repeat case_match; simplify_eq; try exact Hs;
    try (eapply add_post_consistent; [exact Hs | | eassumption]; reflexivity);
    try (apply update_post_consistent; [reflexivity | reflexivity | exact Hs]);
    eauto using add_tag_consistent, add_user_consistent,
      add_comment_consistent, update_comment_consistent, delete_post_consistent.
Qed.

(** So does a whole session; the stores a client can reach from the empty
    database are consistent. *)
Lemma serve_consistent hash reqs : forall s resps s',
  consistent s -> App.serve hash reqs s = Some (resps, s') -> consistent s'.
Proof.
  induction reqs as [|[[now c] r] reqs IH]; simpl; intros s resps s' Hs H.
  - now simplify_eq.
  - destruct (App.dispatch hash now c r s) as [[resp s1]|] eqn:Hd; [|discriminate].
    destruct (App.serve hash reqs s1) as [[resps1 s2]|] eqn:Hr; [|discriminate].
    simplify_eq. eapply IH; [|exact Hr]. eapply dispatch_consistent; eauto.
Qed.

End Preservation.

(** ** The life cycle of a post *)

Section PostLifeCycle.

Lemma find_app_last {A} (f : A -> bool) (l : list A) (x : A) :
  find f l = None -> f x = true -> find f (l ++ [x]) = Some x.
Proof.
  induction l as [|y l IH]; simpl; intros Hl Hx.
  - now rewrite Hx.
  - destruct (f y); [discriminate | auto].
Qed.

Lemma get_post_fresh s p :
  Forall (fun q => Post.id q < next_uuid s) (posts s) ->
  Post.id p = next_uuid s ->
  Db.get_post (with_post s p) (Post.id p) = Some p.
Proof.
  intros Hids Hid. unfold Db.get_post, Db.first, with_post. simpl posts.
  apply find_app_last; [|now apply bool_decide_eq_true].
  destruct (find _ _) as [q|] eqn:E; [|reflexivity].
  apply find_some in E as [Hin Hq]. apply bool_decide_eq_true in Hq.
  rewrite List.Forall_forall in Hids. apply Hids in Hin. lia.
Qed.

Lemma get_post_update s pid f :
  (forall p, Post.id (f p) = Post.id p) ->
  Db.get_post (Db.update_post s pid f) pid = option_map f (Db.get_post s pid).
Proof.
  intros Hid. unfold Db.get_post, Db.first, Db.update_post. simpl posts.
  induction (posts s) as [|p l IH]; [reflexivity|]. simpl.
  destruct (bool_decide (Post.id p = pid)) eqn:E.
  - rewrite Hid, E. reflexivity.
  - rewrite E. exact IH.
Qed.

(** A served creation returns the row it stored: the flag is the one the
    body asks for, the owner is the caller. *)
Lemma create_post_201 hash now data r s resp s1 :
  App.dispatch hash now (App.POST_api_posts data) r s = Some (resp, s1) ->
  status resp = 201 ->
  exists p, s1 = with_post s p /\ Post.id p = next_uuid s
    /\ resp = mkResponse 201 (PostMessage "Post created successfully" (post_to_dict s1 p))
    /\ Post.published_at p = (if Post.is_published p then Some now else None)
    /\ Post.is_published p = default false (asks_published data)
    /\ Some (Post.user_id p) = Flask.bearer r.
Proof.
  intros H Hst. unfold App.dispatch in H.
  destruct (Flask.bearer r) as [uid|] eqn:Hr.
  2:{ destruct (jwt_required_refused Some (Api.create_post now data) r s Hr)
        as (st & msg & Hrefused & E).
      rewrite E in H. injection H as <- <-. simpl in Hst.
      destruct Hrefused; congruence. }
  rewrite (jwt_required_valid _ _ _ _ _ Hr) in H.
  unfold Api.create_post, Flask.get_jwt_identity, Db.add_post in H.
  cbn [Flask.jwt_identity] in H.
  destruct data as [d|]; [|injection H as <- <-; discriminate Hst].
  destruct (negb _); [injection H as <- <-; discriminate Hst|].
  destruct (Json.missing (Json.title d)); [injection H as <- <-; discriminate Hst|].
  destruct (Json.missing (Json.content d)); [injection H as <- <-; discriminate Hst|].
  cbv zeta in H. destruct (Api.unique_slug _ _) as [slug|]; [|discriminate H].
  destruct (Py.found _); injection H as <- <-; [discriminate Hst|].
  eexists; repeat split; reflexivity.
Qed.

(** A PUT either commits the attribute writes, answering 200, or leaves
    the store as it is. *)
Lemma put_outcome hash now pid data r s resp s' :
  App.dispatch hash now (App.PUT_api_post pid data) r s = Some (resp, s') ->
  (status resp = 200
   /\ exists d, data = Some d /\ s' = Db.update_post s pid (Api.apply_update now d))
  \/ (status resp <> 200 /\ s' = s).
Proof.
  unfold App.dispatch, Flask.jwt_required, Flask.jwt_required_with, Api.update_post.
  intros H. repeat case_match; simplify_eq;
    first [ right; split; [discriminate | reflexivity]
          | left; split; [reflexivity | eexists; split; reflexivity] ].
Qed.

(** What one PUT does to the post it addresses. *)
Lemma put_post hash now pid data r s resp s' q :
  App.dispatch hash now (App.PUT_api_post pid data) r s = Some (resp, s') ->
  Db.get_post s pid = Some q ->
  exists q', Db.get_post s' pid = Some q'
    /\ Post.published_at q'
       = (if bool_decide (status resp = 200 /\ asks_published data = Some true
                          /\ Post.published_at q = None)
          then Some now else Post.published_at q)
    /\ Post.is_published q'
       = (if bool_decide (status resp = 200)
          then default (Post.is_published q) (asks_published data)
          else Post.is_published q)
    /\ Post.user_id q' = Post.user_id q.
Proof.
  intros H Hq. apply put_outcome in H as [(Hst & d & -> & ->)|(Hst & ->)].
  - rewrite get_post_update, Hq by reflexivity. simpl option_map.
    eexists; split; [reflexivity|]. unfold Api.apply_update.
    cbn [Post.published_at Post.is_published Post.user_id asks_published].
    rewrite (bool_decide_eq_true_2 _ Hst). split; [|split; [|reflexivity]].
    + destruct (Json.is_published d) as [[|]|], (Post.published_at q); simpl;
        first [ rewrite bool_decide_eq_true_2 by auto; reflexivity
              | rewrite bool_decide_eq_false_2;
                [reflexivity | intros (_ & ? & ?); discriminate] ].
    + now destruct (Json.is_published d).
  - exists q. split; [exact Hq|].
    rewrite !bool_decide_eq_false_2; [auto | exact Hst | intros [? _]; contradiction].
Qed.

(** The PUT of the owner, with a body that is not empty, is served. *)
Lemma put_by_owner hash now pid data r s resp s' q :
  App.dispatch hash now (App.PUT_api_post pid data) r s = Some (resp, s') ->
  Db.get_post s pid = Some q ->
  Flask.bearer r = Some (Post.user_id q) ->
  Json.truthy_post data = true ->
  status resp = 200.
Proof.
  intros H Hq Hr Ht. unfold App.dispatch in H.
  rewrite (jwt_required_valid _ _ _ _ _ Hr) in H.
  unfold Api.update_post, Flask.get_jwt_identity in H. cbn [Flask.jwt_identity] in H.
  rewrite Hq in H. unfold Api.permission_denied in H.
  rewrite (bool_decide_eq_true_2 _ eq_refl) in H. cbn [negb] in H.
  destruct data as [d|]; [|discriminate Ht].
  rewrite Ht in H. cbn [negb] in H. now simplify_eq.
Qed.

(** One PUT keeps the owner and a set [published_at], and keeps a published
    post dated. *)
Lemma put_step_post pid s s' q :
  put_step pid s s' -> Db.get_post s pid = Some q ->
  exists q', Db.get_post s' pid = Some q'
    /\ Post.user_id q' = Post.user_id q
    /\ (forall t, Post.published_at q = Some t -> Post.published_at q' = Some t)
    /\ ((Post.is_published q = true -> Post.published_at q <> None) ->
        Post.is_published q' = true -> Post.published_at q' <> None).
Proof.
  intros (hash & now & data & r & resp & H) Hq.
  destruct (put_post _ _ _ _ _ _ _ _ _ H Hq) as (q' & Hq' & Hat & Hpub & Hown).
  exists q'. split; [exact Hq'|]. split; [exact Hown|]. split.
  - intros t Ht. rewrite Hat, Ht.
    rewrite bool_decide_eq_false_2; [reflexivity | intros (_ & _ & ?); discriminate].
  - intros Hinv Hp. rewrite Hat.
    destruct (decide (status resp = 200 /\ asks_published data = Some true
                      /\ Post.published_at q = None)) as [Hc|Hc].
    + rewrite bool_decide_eq_true_2 by exact Hc. discriminate.
    + rewrite bool_decide_eq_false_2 by exact Hc. rewrite Hpub in Hp.
      destruct (decide (status resp = 200)) as [Hst|Hst].
      * rewrite bool_decide_eq_true_2 in Hp by exact Hst.
        destruct (asks_published data) as [[|]|] eqn:Ha; simpl in Hp;
          [|discriminate|auto].
        intros Hnone. apply Hc. auto.
      * rewrite bool_decide_eq_false_2 in Hp by exact Hst. auto.
Qed.

(** So does a run of PUTs. *)
Lemma puts_post pid s1 s2 :
  rtc (put_step pid) s1 s2 -> forall q1,
  Db.get_post s1 pid = Some q1 ->
  exists q2, Db.get_post s2 pid = Some q2
    /\ Post.user_id q2 = Post.user_id q1
    /\ (forall t, Post.published_at q1 = Some t -> Post.published_at q2 = Some t)
    /\ ((Post.is_published q1 = true -> Post.published_at q1 <> None) ->
        Post.is_published q2 = true -> Post.published_at q2 <> None).
Proof.
  induction 1 as [s|s1 s2 s3 Hstep _ IH]; intros q1 Hq1.
  - exists q1. auto.
  - destruct (put_step_post _ _ _ _ Hstep Hq1) as (q2 & Hq2 & Hown & Hkeep & Hinv).
    destruct (IH _ Hq2) as (q3 & Hq3 & Hown' & Hkeep' & Hinv').
    exists q3. split; [exact Hq3|]. split; [congruence|]. split; auto.
Qed.

(** A dated post was published at some point of the run. *)
Lemma dated_ever_published pid s1 p :
  Db.get_post s1 pid = Some p ->
  (Post.published_at p <> None -> Post.is_published p = true) ->
  forall s2, rtc (put_step pid) s1 s2 -> forall q,
  Db.get_post s2 pid = Some q -> Post.published_at q <> None ->
  ever_published pid s1 s2.
Proof.
  intros Hp Hcreated.
  apply (rtc_ind_r (fun s2 => forall q, Db.get_post s2 pid = Some q ->
                      Post.published_at q <> None -> ever_published pid s1 s2)).
  - intros q Hq Hdated. assert (q = p) as -> by congruence.
    exists s1, p. repeat split; [reflexivity | reflexivity | exact Hp | auto].
  - intros s2 s3 Hrun Hstep IH q Hq Hdated.
    destruct (puts_post _ _ _ Hrun _ Hp) as (q2 & Hq2 & _ & _ & _).
    destruct (Post.published_at q2) as [t|] eqn:Et.
    + destruct (IH _ Hq2) as (s' & q' & H1 & H2 & Hq' & Hpub); [congruence|].
      exists s', q'. repeat split; [exact H1 | | exact Hq' | exact Hpub].
      eapply rtc_r; eauto.
    + destruct Hstep as (hash & now & data & r & resp & H).
      destruct (put_post _ _ _ _ _ _ _ _ _ H Hq2) as (q3 & Hq3 & Hat & Hpub & _).
      assert (q3 = q) as -> by congruence. rewrite Hat in Hdated.
      destruct (decide (status resp = 200 /\ asks_published data = Some true
                        /\ Post.published_at q2 = None)) as [Hc|Hc];
        [|rewrite bool_decide_eq_false_2 in Hdated by exact Hc; congruence].
      destruct Hc as (Hst & Ha & _).
      rewrite Ha, bool_decide_eq_true_2 in Hpub by exact Hst. simpl in Hpub.
      exists s3, q. repeat split; [| reflexivity | exact Hq | exact Hpub].
      eapply rtc_r; [exact Hrun|]. now exists hash, now, data, r, resp.
Qed.

End PostLifeCycle.

(** C3.  A served creation stores the post with the flag its body asks
    for (off when it asks for none) and dates it exactly when that flag is
    on.  From then on, through any run of PUTs on the post by any callers,
    the post stays, and every further PUT on it is answered: the author's,
    with a body that is not empty, is served (200); a served PUT writes the
    flag its body asks for; it sets [published_at] to its clock reading
    exactly when it is served, asks for [is_published] true and finds
    [published_at] unset, and otherwise (unpublishing included) leaves it as
    it is.  A date once set is never replaced, and [published_at] is set if
    and only if the post was published at some point of the run. *)
Theorem published_at_set_once hash s now data r resp s1 :
  consistent s ->
  App.dispatch hash now (App.POST_api_posts data) r s = Some (resp, s1) ->
  status resp = 201 ->
  exists p,
    body resp = PostMessage "Post created successfully" (post_to_dict s1 p)
    /\ Db.get_post s1 (Post.id p) = Some p
    /\ Post.is_published p = default false (asks_published data)
    /\ Post.published_at p = (if Post.is_published p then Some now else None)
    /\ forall s2, rtc (put_step (Post.id p)) s1 s2 ->
       exists q,
         Db.get_post s2 (Post.id p) = Some q
         /\ (Post.published_at q <> None <-> ever_published (Post.id p) s1 s2)
         /\ (forall hash' now' data' r',
               exists resp' s3 q',
                 App.dispatch hash' now' (App.PUT_api_post (Post.id p) data') r' s2
                 = Some (resp', s3)
                 /\ Db.get_post s3 (Post.id p) = Some q'
                 /\ (Flask.bearer r' = Flask.bearer r -> Json.truthy_post data' = true ->
                     status resp' = 200)
                 /\ Post.is_published q'
                    = (if bool_decide (status resp' = 200)
                       then default (Post.is_published q) (asks_published data')
                       else Post.is_published q)
                 /\ Post.published_at q'
                    = (if bool_decide (status resp' = 200
                                       /\ asks_published data' = Some true
                                       /\ Post.published_at q = None)
                       then Some now' else Post.published_at q))
         /\ (forall s3 q3 t,
               rtc (put_step (Post.id p)) s2 s3 ->
               Db.get_post s3 (Post.id p) = Some q3 ->
               Post.published_at q = Some t -> Post.published_at q3 = Some t).
Proof.
  intros Hs Hcreate Hst.
  destruct (create_post_201 _ _ _ _ _ _ _ Hcreate Hst)
    as (p & -> & Hid & -> & Hat & Hflag & Hauthor).
  assert (Db.get_post (with_post s p) (Post.id p) = Some p) as Hp.
  { apply get_post_fresh; [apply Hs | exact Hid]. }
  assert (Post.is_published p = true -> Post.published_at p <> None) as Hinv.
  { intros Hpub. rewrite Hat, Hpub. discriminate. }
  assert (Post.published_at p <> None -> Post.is_published p = true) as Hcreated.
  { rewrite Hat. destruct (Post.is_published p); [reflexivity | contradiction]. }
  exists p. split; [reflexivity|]. split; [exact Hp|]. split; [exact Hflag|].
  split; [exact Hat|].
  intros s2 Hrun.
  destruct (puts_post _ _ _ Hrun _ Hp) as (q & Hq & Hown & _ & Hinv2).
  exists q. split; [exact Hq|]. split; [split|split].
  - intros Hdated. eapply dated_ever_published; eauto.
  - intros (s' & q' & Hrun1 & Hrun2 & Hq' & Hpub).
    destruct (puts_post _ _ _ Hrun1 _ Hp) as (q'' & Hq'' & _ & _ & Hinv').
    assert (q'' = q') as -> by congruence.
    specialize (Hinv' Hinv Hpub).
    destruct (Post.published_at q') as [t|] eqn:Et; [|contradiction].
    destruct (puts_post _ _ _ Hrun2 _ Hq') as (q3 & Hq3 & _ & Hkeep & _).
    assert (q3 = q) as -> by congruence.
    rewrite (Hkeep t Et). discriminate.
  - intros hash' now' data' r'.
    destruct (dispatch_total hash' now' (App.PUT_api_post (Post.id p) data') r' s2)
      as ([resp' s3] & Hput).
    destruct (put_post _ _ _ _ _ _ _ _ _ Hput Hq) as (q' & Hq' & Hat' & Hpub' & _).
    exists resp', s3, q'. split; [exact Hput|]. split; [exact Hq'|].
    split; [|split; [exact Hpub' | exact Hat']].
    intros Hsame Htruthy. eapply put_by_owner; [exact Hput | exact Hq | | exact Htruthy].
    rewrite Hsame, <- Hauthor. now rewrite Hown.
  - intros s3 q3 t Hrun3 Hq3 Ht.
    destruct (puts_post _ _ _ Hrun3 _ Hq) as (q3' & Hq3' & _ & Hkeep & _).
    assert (q3' = q3) as -> by congruence. now apply Hkeep.
Qed.

Lemma published_at_set_once_witness :
  exists s1 s3 q resp' s4 q',
    App.dispatch (fun p => p) 1 (App.POST_api_posts draft_request) (as_user 0) empty_store
    = Some (mkResponse 201
              (PostMessage "Post created successfully"
                 (mkPostDict (Post.mk 0 "Hello World" "x" "" "hello-world" false None 1 1 0)
                    None [] 0)), s1)
    /\ option_map snd
         (App.serve (fun p => p)
            [(5, App.PUT_api_post 0 publish_body, as_user 0);
             (7, App.PUT_api_post 0 unpublish_body, as_user 0)] s1) = Some s3
    /\ Db.get_post s3 0 = Some q
    /\ Post.is_published q = false /\ Post.published_at q = Some 5
    /\ App.dispatch (fun p => p) 9 (App.PUT_api_post 0 publish_body) (as_user 0) s3
       = Some (resp', s4)
    /\ status resp' = 200
    /\ Db.get_post s4 0 = Some q'
    /\ Post.is_published q' = true /\ Post.published_at q' = Some 5.
Proof.
  set (p0 := Post.mk 0 "Hello World" "x" "" "hello-world" false None 1 1 0).
  set (s1 := mkStore [] [p0] [] [] [] 1).
  set (s2 := mkStore [] [Post.mk 0 "Hello World" "x" "" "hello-world" true (Some 5) 1 5 0]
               [] [] [] 1).
  set (s3 := mkStore [] [Post.mk 0 "Hello World" "x" "" "hello-world" false (Some 5) 1 7 0]
               [] [] [] 1).
  assert (App.dispatch (fun p => p) 1 (App.POST_api_posts draft_request) (as_user 0)
            empty_store
          = Some (mkResponse 201
                    (PostMessage "Post created successfully" (mkPostDict p0 None [] 0)), s1))
    as Hcreate by (vm_compute; reflexivity).
  assert (rtc (put_step 0) s1 s3) as Hrun.
  { apply rtc_l with s2; [|apply rtc_once].
    - exists (fun p => p), 5, publish_body, (as_user 0). eexists. vm_compute. reflexivity.
    - exists (fun p => p), 7, unpublish_body, (as_user 0). eexists. vm_compute. reflexivity. }
  destruct (published_at_set_once _ _ _ _ _ _ _ empty_store_consistent Hcreate eq_refl)
    as (p & Hbody & _ & _ & _ & Hruns).
  assert (p = p0) as -> by (simpl in Hbody; now injection Hbody).
  destruct (Hruns s3 Hrun) as (q & Hq & _ & Hput & _).
  destruct (Hput (fun p => p) 9 publish_body (as_user 0))
    as (resp' & s4 & q' & Hd & Hq' & Hserved & Hflag & Hdate).
  change (Some (Post.mk 0 "Hello World" "x" "" "hello-world" false (Some 5) 1 7 0) = Some q)
    in Hq.
  injection Hq as <-.
  specialize (Hserved eq_refl eq_refl).
  rewrite (bool_decide_eq_true_2 _ Hserved) in Hflag.
  rewrite bool_decide_eq_false_2 in Hdate by (intros (_ & _ & H); discriminate H).
  exists s1, s3, (Post.mk 0 "Hello World" "x" "" "hello-world" false (Some 5) 1 7 0),
    resp', s4, q'.
  split; [exact Hcreate|]. split; [reflexivity|]. split; [reflexivity|].
  split; [reflexivity|]. split; [reflexivity|]. split; [exact Hd|].
  split; [exact Hserved|]. split; [exact Hq'|].
  split; [exact Hflag | exact Hdate].
Defined.

(** ** Authorization of PUT and DELETE *)

Section Authorization.

Lemma get_user_id s uid user : Db.get_user s uid = Some user -> User.id user = uid.
Proof.
  unfold Db.get_user, Db.first. intros H. apply find_some in H as [_ H].
  now apply bool_decide_eq_true in H.
Qed.

Lemma permission_denied_spec post uid user :
  User.id user = uid ->
  Api.permission_denied post uid (Some user)
  = inr (negb (bool_decide (can_mutate user post))).
Proof.
  intros <-. unfold Api.permission_denied, can_mutate.
  destruct (decide (Post.user_id post = User.id user)) as [Ho|Ho].
  - rewrite (bool_decide_eq_true_2 _ Ho). simpl.
    rewrite bool_decide_eq_true_2; [reflexivity | left; congruence].
  - rewrite (bool_decide_eq_false_2 _ Ho). simpl. f_equal. f_equal.
    destruct (User.is_admin user) eqn:Ha.
    + symmetry. apply bool_decide_eq_true_2. now right.
    + symmetry. apply bool_decide_eq_false_2. intros [?|?]; congruence.
Qed.

Lemma get_post_deleted s pid : Db.get_post (Db.delete_post s pid) pid = None.
Proof.
  unfold Db.get_post, Db.first, Db.delete_post. simpl posts.
  destruct (find _ _) as [p|] eqn:E; [|reflexivity].
  apply find_some in E as [Hin Hp]. apply List.filter_In in Hin as [_ Hn].
  rewrite Hp in Hn. discriminate.
Qed.

(** PUT and DELETE for an actor whose user row is [actor]. *)
Lemma mutation_by_user hash now pid data r s actor post :
  Flask.bearer r = Some (User.id actor) ->
  Db.get_user s (User.id actor) = Some actor ->
  Db.get_post s pid = Some post ->
  App.dispatch hash now (App.PUT_api_post pid data) r s
  = Some (if bool_decide (can_mutate actor post)
          then match data with
               | Some d =>
                   if Json.truthy_post data
                   then (mkResponse 200
                           (PostMessage "Post updated successfully"
                              (post_to_dict (Db.update_post s pid (Api.apply_update now d))
                                 (Api.apply_update now d post))),
                         Db.update_post s pid (Api.apply_update now d))
                   else (mkResponse 400 (Error "No data provided"), s)
               | None => (mkResponse 400 (Error "No data provided"), s)
               end
          else (mkResponse 403 (Error "Permission denied"), s))
  /\ App.dispatch hash now (App.DELETE_api_post pid) r s
     = Some (if bool_decide (can_mutate actor post)
             then (mkResponse 200 (Message "Post deleted successfully"), Db.delete_post s pid)
             else (mkResponse 403 (Error "Permission denied"), s)).
Proof.
  intros Hr Hu Hp. unfold App.dispatch. rewrite !(jwt_required_valid _ _ _ _ _ Hr).
  unfold Api.update_post, Api.delete_post, Flask.get_jwt_identity.
  cbn [Flask.jwt_identity]. rewrite Hp, Hu.
  rewrite (permission_denied_spec post (User.id actor) actor eq_refl).
  destruct (bool_decide (can_mutate actor post)); cbn [negb]; [|split; reflexivity].
  split; [|reflexivity].
  destruct data as [d|]; [|reflexivity]. now destruct (Json.truthy_post (Some d)).
Qed.

(** PUT and DELETE for a token whose user row does not exist. *)
Lemma mutation_without_user hash now pid data r s uid post :
  Flask.bearer r = Some uid ->
  Db.get_user s uid = None ->
  Db.get_post s pid = Some post ->
  Post.user_id post <> uid ->
  App.dispatch hash now (App.PUT_api_post pid data) r s = Some (Flask.internal_error, s)
  /\ App.dispatch hash now (App.DELETE_api_post pid) r s = Some (Flask.internal_error, s).
Proof.
  intros Hr Hu Hp Hown. unfold App.dispatch. rewrite !(jwt_required_valid _ _ _ _ _ Hr).
  unfold Api.update_post, Api.delete_post, Flask.get_jwt_identity.
  cbn [Flask.jwt_identity]. rewrite Hp, Hu. unfold Api.permission_denied.
  rewrite (bool_decide_eq_false_2 _ Hown). split; reflexivity.
Qed.

End Authorization.

(** C4, where it fails.  For a caller with a valid token and an existing
    post, PUT and DELETE are always answered.  When the token's user row
    exists, they answer 403 exactly when that user neither owns the post
    nor is an admin, and then the store is left as it was; a permitted
    DELETE removes the post, a permitted PUT with a body is applied.  When
    the token's user row does not exist and the post is another user's,
    reading [user.is_admin] raises: both requests are answered 500, not
    403, the store left as it was. *)
Theorem post_mutation_policy hash now pid data r s uid post :
  Flask.bearer r = Some uid ->
  Db.get_post s pid = Some post ->
  exists put_resp put_s del_resp del_s,
    App.dispatch hash now (App.PUT_api_post pid data) r s = Some (put_resp, put_s)
    /\ App.dispatch hash now (App.DELETE_api_post pid) r s = Some (del_resp, del_s)
    /\ (forall actor, Db.get_user s uid = Some actor ->
          (status put_resp <> 403 <-> can_mutate actor post)
          /\ (status del_resp <> 403 <-> can_mutate actor post)
          /\ (~ can_mutate actor post ->
                put_resp = mkResponse 403 (Error "Permission denied") /\ put_s = s
                /\ del_resp = mkResponse 403 (Error "Permission denied") /\ del_s = s)
          /\ (can_mutate actor post ->
                status del_resp = 200 /\ del_s = Db.delete_post s pid
                /\ Db.get_post del_s pid = None)
          /\ (can_mutate actor post -> Json.truthy_post data = true ->
                exists d, data = Some d /\ status put_resp = 200
                  /\ put_s = Db.update_post s pid (Api.apply_update now d)))
    /\ (Db.get_user s uid = None -> Post.user_id post <> uid ->
          put_resp = Flask.internal_error /\ put_s = s
          /\ del_resp = Flask.internal_error /\ del_s = s
          /\ status put_resp <> 403 /\ status del_resp <> 403).
Proof.
  intros Hr Hp.
  destruct (dispatch_total hash now (App.PUT_api_post pid data) r s) as ([put_resp put_s] & Hput).
  destruct (dispatch_total hash now (App.DELETE_api_post pid) r s) as ([del_resp del_s] & Hdel).
  exists put_resp, put_s, del_resp, del_s.
  split; [exact Hput|]. split; [exact Hdel|]. split.
  - intros actor Hu. pose proof (get_user_id _ _ _ Hu) as Hid. subst uid.
    destruct (mutation_by_user hash now pid data r s actor post Hr Hu Hp) as (Hput' & Hdel').
    rewrite Hput' in Hput. rewrite Hdel' in Hdel. clear Hput' Hdel'.
    destruct (decide (can_mutate actor post)) as [Hc|Hc].
    + rewrite (bool_decide_eq_true_2 _ Hc) in Hput, Hdel.
      injection Hdel as <- <-.
      assert (status put_resp <> 403) as Hst.
      { destruct data as [d|]; [destruct (Json.truthy_post (Some d))|];
          injection Hput as <- _; discriminate. }
      split; [split; [intros _; exact Hc | intros _; exact Hst]|].
      split; [split; [intros _; exact Hc | discriminate]|].
      split; [intros Hn; contradiction|].
      split; [intros _; repeat split; apply get_post_deleted|].
      intros _ Ht. destruct data as [d|]; [|discriminate Ht].
      rewrite Ht in Hput. injection Hput as <- <-. exists d. repeat split.
    + rewrite (bool_decide_eq_false_2 _ Hc) in Hput, Hdel.
      injection Hput as <- <-. injection Hdel as <- <-.
      split; [split; [intros H; now contradiction H | contradiction]|].
      split; [split; [intros H; now contradiction H | contradiction]|].
      split; [intros _; repeat split|]. split; contradiction.
  - intros Hu Hown.
    destruct (mutation_without_user hash now pid data r s uid post Hr Hu Hp Hown)
      as (Hput' & Hdel').
    rewrite Hput' in Hput. rewrite Hdel' in Hdel.
    injection Hput as <- <-. injection Hdel as <- <-.
    repeat split; discriminate.
Qed.

Lemma post_mutation_policy_witness :
  Flask.bearer (as_user 99) = Some 99
  /\ Db.get_user blog 99 = None
  /\ Db.get_post blog 10 = Some (Post.mk 10 "Hello World" "x" "" "hello-world" false None 1 1 1)
  /\ App.dispatch (fun p => p) 5 (App.PUT_api_post 10 (post_json "Mine" "now")) (as_user 99) blog
     = Some (mkResponse 500 (Error "Internal server error"), blog)
  /\ App.dispatch (fun p => p) 5 (App.DELETE_api_post 10) (as_user 99) blog
     = Some (mkResponse 500 (Error "Internal server error"), blog).
Proof.
  split; [reflexivity | split; [reflexivity | split; [reflexivity |]]].
  destruct (post_mutation_policy (fun p => p) 5 10 (post_json "Mine" "now") (as_user 99) blog
              99 (Post.mk 10 "Hello World" "x" "" "hello-world" false None 1 1 1)
              eq_refl eq_refl)
    as (put_resp & put_s & del_resp & del_s & Hput & Hdel & _ & Hnone).
  destruct (Hnone eq_refl) as (-> & -> & -> & -> & _).
  - discriminate.
  - split; [exact Hput | exact Hdel].
Defined.

(** ** Comments *)

(** Comment creation on an existing post with a content is served for every
    caller, and the comment is anonymous for every caller. *)
Lemma create_comment_served hash now pid d r s post :
  Db.get_post s pid = Some post ->
  Json.comment_content d <> None ->
  App.dispatch hash now (App.POST_api_post_comments pid (Some d)) r s
  = Some (mkResponse 201 (CommentMessage "Comment created successfully"
                            (anonymous_comment s now pid d)),
          Db.add_comment s (anonymous_comment s now pid d)).
Proof.
  intros Hp Hc. unfold App.dispatch, Flask.undecorated, Api.create_comment.
  rewrite Hp. destruct (Json.comment_content d) as [content|] eqn:E; [|contradiction].
  simpl Json.truthy_comment. rewrite E. simpl.
  unfold anonymous_comment. rewrite E. reflexivity.
Qed.

(** C5, at the failing input.  Bob presents a valid access token and
    comments on post 10: the comment is created, with no [user_id]. *)
Theorem create_comment_ignores_token :
  App.dispatch (fun p => p) 5 (App.POST_api_post_comments 10 (comment_json "hi"))
    (as_user 2) blog
  = Some (mkResponse 201 (CommentMessage "Comment created successfully"
                            (Comment.mk 11 "hi" false "" "" 5 10 None)),
          Db.add_comment blog (Comment.mk 11 "hi" false "" "" 5 10 None))
  /\ Flask.bearer (as_user 2) = Some 2
  /\ Comment.user_id (Comment.mk 11 "hi" false "" "" 5 10 None) <> Some 2.
Proof.
  split; [|split; [reflexivity | discriminate]].
  unfold comment_json.
  rewrite (create_comment_served _ 5 10 _ (as_user 2) blog
             (Post.mk 10 "Hello World" "x" "" "hello-world" false None 1 1 1));
    [reflexivity | reflexivity | discriminate].
Qed.

(** ** Moderation *)

Section Moderation.

Lemma get_comment_update s cid f :
  (forall c, Comment.id (f c) = Comment.id c) ->
  Db.get_comment (Db.update_comment s cid f) cid = option_map f (Db.get_comment s cid).
Proof.
  intros Hid. unfold Db.get_comment, Db.first, Db.update_comment. simpl comments.
  induction (comments s) as [|c l IH]; [reflexivity|]. simpl.
  destruct (bool_decide (Comment.id c = cid)) eqn:E.
  - rewrite Hid, E. reflexivity.
  - rewrite E. exact IH.
Qed.

Lemma update_comment_twice s cid f :
  (forall c, Comment.id (f c) = Comment.id c) -> (forall c, f (f c) = f c) ->
  Db.update_comment (Db.update_comment s cid f) cid f = Db.update_comment s cid f.
Proof.
  intros Hid Hf. unfold Db.update_comment. simpl. f_equal.
  rewrite map_map. apply map_ext. intros c.
  destruct (bool_decide (Comment.id c = cid)) eqn:E.
  - now rewrite Hid, E, Hf.
  - now rewrite E.
Qed.

(** An admin passes [admin_required]. *)
Lemma admin_required_admin view r s admin :
  Flask.bearer r = Some (User.id admin) ->
  Db.get_user s (User.id admin) = Some admin ->
  User.is_admin admin = true ->
  Api.admin_required view r s
  = view (Flask.mkG (Some (User.id admin))) r s.
Proof.
  intros Hr Hu Ha. unfold Api.admin_required.
  rewrite (jwt_required_valid _ _ _ _ _ Hr).
  unfold Flask.get_jwt_identity. cbn [Flask.jwt_identity].
  now rewrite Hu, Ha.
Qed.

End Moderation.

(** C6.  An admin's approval of an existing comment is served whatever the
    comment's post and author; it sets the flag and nothing else of the
    comment, and approving again answers the same and leaves the store as
    the first approval left it. *)
Theorem approve_comment_idempotent hash now cid r s admin c :
  Flask.bearer r = Some (User.id admin) ->
  Db.get_user s (User.id admin) = Some admin ->
  User.is_admin admin = true ->
  Db.get_comment s cid = Some c ->
  exists s1,
    App.dispatch hash now (App.POST_api_admin_comment_approve cid) r s
    = Some (mkResponse 200 (Message "Comment approved successfully"), s1)
    /\ Db.get_comment s1 cid = Some (approved c)
    /\ Comment.is_approved (approved c) = true
    /\ App.dispatch hash now (App.POST_api_admin_comment_approve cid) r s1
       = Some (mkResponse 200 (Message "Comment approved successfully"), s1).
Proof.
  intros Hr Hu Ha Hc.
  exists (Db.update_comment s cid approved).
  assert (Db.get_comment (Db.update_comment s cid approved) cid = Some (approved c)) as Hc1.
  { rewrite get_comment_update by reflexivity. now rewrite Hc. }
  split; [|split; [exact Hc1 | split; [reflexivity|]]].
  - unfold App.dispatch. rewrite (admin_required_admin _ _ _ _ Hr Hu Ha).
    unfold Api.approve_comment. rewrite Hc. reflexivity.
  - unfold App.dispatch.
    rewrite (admin_required_admin _ r (Db.update_comment s cid approved) admin Hr Hu Ha).
    unfold Api.approve_comment. rewrite Hc1.
    change (fun c0 => Comment.mk (Comment.id c0) (Comment.content c0) true
                        (Comment.author_name c0) (Comment.author_email c0)
                        (Comment.created_at c0) (Comment.post_id c0) (Comment.user_id c0))
      with approved.
    rewrite update_comment_twice; reflexivity.
Qed.

Lemma approve_comment_idempotent_witness :
  Flask.bearer (as_user 3) = Some 3
  /\ Db.get_user moderated_blog 3
     = Some (User.mk 3 "carol" "carol@x.com" "h" "" "" true true 0 0 None)
  /\ Db.get_comment moderated_blog 20 = Some (Comment.mk 20 "first" false "" "" 2 10 (Some 2))
  /\ exists s1,
       App.dispatch (fun p => p) 7 (App.POST_api_admin_comment_approve 20) (as_user 3)
         moderated_blog
       = Some (mkResponse 200 (Message "Comment approved successfully"), s1)
       /\ Db.get_comment s1 20 = Some (Comment.mk 20 "first" true "" "" 2 10 (Some 2))
       /\ App.dispatch (fun p => p) 7 (App.POST_api_admin_comment_approve 20) (as_user 3) s1
          = Some (mkResponse 200 (Message "Comment approved successfully"), s1).
Proof.
  split; [reflexivity | split; [reflexivity | split; [reflexivity|]]].
  destruct (approve_comment_idempotent (fun p => p) 7 20 (as_user 3) moderated_blog
              (User.mk 3 "carol" "carol@x.com" "h" "" "" true true 0 0 None)
              (Comment.mk 20 "first" false "" "" 2 10 (Some 2))
              eq_refl eq_refl eq_refl eq_refl)
    as (s1 & H1 & H2 & _ & H3).
  exists s1. split; [exact H1 | split; [exact H2 | exact H3]].
Defined.

(** ** Registration *)




(** ** Listings and pagination *)

Section Pagination.

Lemma ceil_div_covers len n : 0 < n -> len <= (len + n - 1) / n * n.
Proof.
  intros Hn. pose proof (Nat.div_mod_eq (len + n - 1) n) as Hdm.
  pose proof (Nat.mod_upper_bound (len + n - 1) n) as Hr. nia.
Qed.

Lemma ceil_div_least len n : 0 < n -> 0 < len -> ((len + n - 1) / n - 1) * n < len.
Proof.
  intros Hn Hlen. pose proof (Nat.div_mod_eq (len + n - 1) n) as Hdm.
  pose proof (Nat.mod_upper_bound (len + n - 1) n) as Hr.
  destruct ((len + n - 1) / n) as [|q] eqn:Eq; nia.
Qed.

Lemma page_size_pos per_page : 0 < page_size per_page.
Proof. unfold page_size. destruct (Z.ltb_spec per_page 1); lia. Qed.




End Pagination.




(** ** Ordering of the comment listings *)

Section Ordering.

Context {A : Type}.
Variable key : A -> nat.

Let desc (a b : A) : Prop := key b <= key a.

Lemma insert_desc_in x l y : In y (Db.insert_desc key x l) <-> y = x \/ In y l.
Proof.
  induction l as [|z l IH]; simpl.
  - intuition.
  - destruct (key z <=? key x); simpl; [intuition|]. rewrite IH. intuition.
Qed.

Lemma insert_desc_sorted x l :
  StronglySorted desc l -> StronglySorted desc (Db.insert_desc key x l).
Proof.
  induction 1 as [|z l Hs IH Hz]; simpl.
  - repeat constructor.
  - destruct (Nat.leb_spec (key z) (key x)) as [Hle|Hgt].
    + constructor; [constructor; assumption|].
      constructor; [exact Hle|].
      eapply Forall_impl; [exact Hz|]. unfold desc. simpl. intros y Hy. lia.
    + constructor; [exact IH|].
      apply List.Forall_forall. intros y Hy. apply insert_desc_in in Hy as [->|Hy].
      * unfold desc. lia.
      * rewrite List.Forall_forall in Hz. now apply Hz.
Qed.

Lemma order_by_desc_sorted l : StronglySorted desc (Db.order_by_desc key l).
Proof.
  induction l as [|x l IH]; simpl; [constructor|]. now apply insert_desc_sorted.
Qed.

Lemma insert_desc_perm x l : Permutation (Db.insert_desc key x l) (x :: l).
Proof.
  induction l as [|z l IH]; simpl; [reflexivity|].
  destruct (key z <=? key x); [reflexivity|].
  rewrite IH. apply perm_swap.
Qed.

Lemma order_by_desc_perm l : Permutation (Db.order_by_desc key l) l.
Proof.
  induction l as [|x l IH]; simpl; [reflexivity|].
  rewrite insert_desc_perm. now constructor.
Qed.

(** Inserting [x] puts it before the rows of its key, when the list is
    sorted: rows with equal keys keep their order. *)
Lemma insert_desc_stable k x l :
  StronglySorted desc l ->
  List.filter (fun y => key y =? k) (Db.insert_desc key x l)
  = List.filter (fun y => key y =? k) (x :: l).
Proof.
  induction 1 as [|z l Hs IH Hz]; [reflexivity|]. simpl Db.insert_desc.
  destruct (Nat.leb_spec (key z) (key x)) as [Hle|Hgt]; [reflexivity|].
  simpl. simpl in IH. rewrite IH.
  destruct (Nat.eqb_spec (key z) k) as [Hzk|Hzk], (Nat.eqb_spec (key x) k) as [Hxk|Hxk];
    try reflexivity.
  lia.
Qed.

Lemma order_by_desc_stable k l :
  List.filter (fun y => key y =? k) (Db.order_by_desc key l)
  = List.filter (fun y => key y =? k) l.
Proof.
  induction l as [|x l IH]; [reflexivity|]. simpl Db.order_by_desc.
  rewrite insert_desc_stable by apply order_by_desc_sorted.
  simpl. now rewrite IH.
Qed.

Lemma sorted_drop n l : StronglySorted desc l -> StronglySorted desc (drop n l).
Proof.
  revert l. induction n as [|n IH]; intros l Hs; [exact Hs|].
  destruct l as [|x l]; [constructor|]. simpl. apply IH. now inversion Hs.
Qed.

Lemma sorted_take n l : StronglySorted desc l -> StronglySorted desc (take n l).
Proof.
  intros Hs. revert n. induction Hs as [|x l Hs IH Hx]; intros [|m]; simpl;
    try constructor.
  - apply IH.
  - apply List.Forall_forall. intros y Hy. rewrite List.Forall_forall in Hx. apply Hx.
    revert Hy. clear. revert m. induction l as [|z l IH]; intros [|m]; simpl; try tauto.
    intros [->|Hy]; [now left | right; eauto].
Qed.

(** A page of a sorted listing is sorted. *)
Lemma page_sorted l page per_page :
  StronglySorted desc l -> StronglySorted desc (Db.items (Db.paginate l page per_page)).
Proof.
  intros Hs. unfold Db.paginate. cbn [Db.items]. now apply sorted_take, sorted_drop.
Qed.

End Ordering.

(** C9, amended.  The admin comment listing is a page of the comments (the
    approved ones under [approved_only]) sorted newest first, comments
    created at the same clock reading staying in insertion order; the
    public listing of a post applies no ordering: it is the approved
    comments of the post in the order of the table. *)
Theorem comment_listing_order g r s pid :
  (exists items,
     fst (Api.get_all_comments g r s)
     = mkResponse 200
         (CommentPage items (length (moderation_rows r s))
            (Db.pages (Db.paginate (Db.order_by_desc Comment.created_at (moderation_rows r s))
                         (Flask.int_arg (arg_page (Flask.args r)) 1)
                         (Flask.int_arg (arg_per_page (Flask.args r)) 20)))
            (Flask.int_arg (arg_page (Flask.args r)) 1))
     /\ items
        = Db.items (Db.paginate (Db.order_by_desc Comment.created_at (moderation_rows r s))
                      (Flask.int_arg (arg_page (Flask.args r)) 1)
                      (Flask.int_arg (arg_per_page (Flask.args r)) 20))
     /\ StronglySorted newer_first items)
  /\ StronglySorted newer_first (Db.order_by_desc Comment.created_at (moderation_rows r s))
  /\ Permutation (Db.order_by_desc Comment.created_at (moderation_rows r s))
       (moderation_rows r s)
  /\ (forall t,
        created_at_is t (Db.order_by_desc Comment.created_at (moderation_rows r s))
        = created_at_is t (moderation_rows r s))
  /\ fst (Api.get_post_comments pid g r s)
     = match Db.get_post s pid with
       | Some _ =>
           mkResponse 200
             (CommentList
                (List.filter
                   (fun c => bool_decide (Comment.post_id c = pid) && Comment.is_approved c)
                   (comments s)))
       | None => Flask.not_found
       end.
Proof.
  split; [|split; [|split; [|split]]].
  - eexists. split; [|split; [reflexivity|]].
    + unfold Api.get_all_comments, moderation_rows. cbv zeta. cbn [fst].
      unfold Db.paginate at 2. cbn [Db.total].
      rewrite (Permutation_length (order_by_desc_perm Comment.created_at _)).
      reflexivity.
    + apply (page_sorted Comment.created_at), order_by_desc_sorted.
  - apply (order_by_desc_sorted Comment.created_at).
  - apply order_by_desc_perm.
  - intros t. apply (order_by_desc_stable Comment.created_at).
  - unfold Api.get_post_comments. now destruct (Db.get_post s pid).
Qed.

(** C9 as stated fails on the public listing: of two approved comments on
    post 10 the older one comes first. *)
Lemma comment_listing_order_counterexample :
  App.dispatch (fun p => p) 9 (App.GET_api_post_comments 10) anonymous two_comments
  = Some (mkResponse 200
            (CommentList [Comment.mk 11 "first" true "" "" 2 10 None;
                          Comment.mk 12 "second" true "" "" 3 10 None]),
          two_comments)
  /\ Comment.created_at (Comment.mk 11 "first" true "" "" 2 10 None)
     < Comment.created_at (Comment.mk 12 "second" true "" "" 3 10 None)
  /\ ~ StronglySorted newer_first
         [Comment.mk 11 "first" true "" "" 2 10 None;
          Comment.mk 12 "second" true "" "" 3 10 None].
Proof.
  split; [reflexivity | split; [simpl; lia|]].
  intros Hs. inversion Hs as [|? ? _ Hall]. inversion Hall as [|? ? Hle _].
  unfold newer_first in Hle. simpl in Hle. lia.
Qed.

(** The store of that listing is reached through the API: two anonymous
    comments on Alice's post, then Carol approves both. *)
Example two_comments_reachable :
  option_map snd
    (App.serve (fun p => p)
       [(2, App.POST_api_post_comments 10 (comment_json "first"), anonymous);
        (3, App.POST_api_post_comments 10 (comment_json "second"), anonymous);
        (4, App.POST_api_admin_comment_approve 11, as_user 3);
        (5, App.POST_api_admin_comment_approve 12, as_user 3)]
       (mkStore (users two_comments) (posts two_comments) [] [] [] 11))
  = Some two_comments.
Proof. vm_compute. reflexivity. Qed.

(** ** The public mirror *)

Section PublicMirror.

Lemma unique_col_inj {A B} (col : A -> B) (rows : list A) (a b : A) :
  List.NoDup (map col rows) -> In a rows -> In b rows -> col a = col b -> a = b.
Proof.
  induction rows as [|x rows IH]; simpl; intros Hnd Ha Hb Hab; [contradiction|].
  apply List.NoDup_cons_iff in Hnd as [Hx Hnd].
  destruct Ha as [->|Ha], Hb as [->|Hb]; auto.
  - exfalso. apply Hx. rewrite Hab. now apply in_map.
  - exfalso. apply Hx. rewrite <- Hab. now apply in_map.
Qed.

Lemma blog_consistent : consistent blog.
Proof.
  split; simpl.
  - repeat constructor.
  - repeat constructor. intros [].
  - constructor.
  - constructor.
  - repeat constructor; simpl; intuition discriminate.
  - repeat constructor; simpl; intuition discriminate.
Qed.

End PublicMirror.

(** C10.  A post whose [is_published] flag is off is not served by
    GET /posts/<slug>: the answer is 404 for every caller, the owner and
    the admins included, and the store is left as it was. *)
Theorem draft_not_served_by_slug hash now r s p :
  consistent s ->
  In p (posts s) ->
  Post.is_published p = false ->
  App.dispatch hash now (App.GET_post (Post.slug p)) r s
  = Some (mkResponse 404 (Error "Post not found"), s).
Proof.
  intros Hs Hp Hdraft. unfold App.dispatch, Flask.undecorated, Main.get_post, Db.first.
  destruct (find _ _) as [q|] eqn:E; [|reflexivity].
  exfalso. apply find_some in E as [Hq Hmatch].
  apply andb_prop in Hmatch as [Hslug Hpub]. apply bool_decide_eq_true in Hslug.
  assert (q = p) as ->.
  { eapply (unique_col_inj Post.slug); eauto. apply Hs. }
  congruence.
Qed.

Lemma draft_not_served_by_slug_witness :
  consistent blog
  /\ In (Post.mk 10 "Hello World" "x" "" "hello-world" false None 1 1 1) (posts blog)
  /\ App.dispatch (fun p => p) 9 (App.GET_post "hello-world") (as_user 1) blog
     = Some (mkResponse 404 (Error "Post not found"), blog).
Proof.
  assert (In (Post.mk 10 "Hello World" "x" "" "hello-world" false None 1 1 1) (posts blog))
    as Hin by (left; reflexivity).
  split; [exact blog_consistent | split; [exact Hin|]].
  exact (draft_not_served_by_slug (fun p => p) 9 (as_user 1) blog _
           blog_consistent Hin eq_refl).
Defined.

(** ** Further worked requests *)

(** A draft is published at 5, unpublished at 7 and published again at 9:
    the date of the first publication stays. *)
Example publish_unpublish_publish :
  option_map (fun o => map Post.published_at (posts (snd o)))
    (App.serve (fun p => p)
       [(1, App.POST_api_posts draft_request, as_user 0);
        (5, App.PUT_api_post 0 (Some (Json.mkPost None None None (Some true) None false)),
         as_user 0);
        (7, App.PUT_api_post 0 (Some (Json.mkPost None None None (Some false) None false)),
         as_user 0);
        (9, App.PUT_api_post 0 (Some (Json.mkPost None None None (Some true) None false)),
         as_user 0)]
       empty_store)
  = Some [Some 5].
Proof. vm_compute. reflexivity. Qed.

(** A token whose user row is gone, on somebody else's post: reading
    [user.is_admin] raises, and the answer is a 500. *)
Example put_by_unknown_user :
  App.dispatch (fun p => p) 5 (App.PUT_api_post 10 (post_json "Mine" "now")) (as_user 99) blog
  = Some (Flask.internal_error, blog).
Proof. reflexivity. Qed.

(** Without a token the decorated views answer 401. *)
Example create_post_without_token :
  App.dispatch (fun p => p) 5 (App.POST_api_posts (post_json "Test Post" "x")) anonymous
    empty_store
  = Some (Flask.unauthorized, empty_store).
Proof. reflexivity. Qed.

(** A regular user is refused by the admin listings. *)
Example admin_users_forbidden :
  App.dispatch (fun p => p) 5 App.GET_api_admin_users (as_user 2) blog
  = Some (mkResponse 403 (Error "Admin privileges required"), blog).
Proof. reflexivity. Qed.

(** ** The shape of a slug candidate *)

Section SlugShape.

Lemma chars_join_if f s : chars (Py.join_if f s) = List.filter f (chars s).
Proof.
  induction s as [|c s IH]; [reflexivity|]. simpl.
  destruct (f c); simpl; now rewrite IH.
Qed.

Lemma chars_inj s t : chars s = chars t -> s = t.
Proof.
  revert t. induction s as [|c s IH]; intros [|d t]; simpl; try discriminate; auto.
  intros [= -> H]. f_equal. auto.
Qed.

Lemma chars_lstrip_suffix c s : exists pre, chars s = pre ++ chars (Py.lstrip c s)
  /\ Forall (fun d => d = c) pre.
Proof.
  induction s as [|d s (pre & IH & Hpre)]; [exists []; split; [reflexivity|constructor]|].
  simpl. destruct (decide (d = c)) as [->|Hne].
  - rewrite bool_decide_eq_true_2 by reflexivity. exists (c :: pre). split.
    + simpl. now rewrite IH.
    + now constructor.
  - rewrite bool_decide_eq_false_2 by exact Hne. exists []. split; [reflexivity|constructor].
Qed.

Lemma first_char_lstrip c s : first_char (Py.lstrip c s) <> Some c.
Proof.
  induction s as [|d s IH]; [discriminate|]. simpl.
  destruct (decide (d = c)) as [->|Hne].
  - now rewrite bool_decide_eq_true_2 by reflexivity.
  - rewrite bool_decide_eq_false_2 by exact Hne. unfold first_char. simpl. congruence.
Qed.

Lemma chars_rstrip_prefix c s : exists suf, chars s = chars (Py.rstrip c s) ++ suf
  /\ Forall (fun d => d = c) suf.
Proof.
  induction s as [|d s (suf & IH & Hsuf)]; [exists []; split; [reflexivity|constructor]|].
  simpl. destruct (Py.rstrip c s) as [|e t] eqn:E.
  - simpl in IH. destruct (decide (d = c)) as [->|Hne].
    + rewrite bool_decide_eq_true_2 by reflexivity. exists (c :: suf). split.
      * simpl. now rewrite IH.
      * now constructor.
    + rewrite bool_decide_eq_false_2 by exact Hne. exists suf. split; [|exact Hsuf].
      simpl. now rewrite IH.
  - exists suf. split; [|exact Hsuf]. simpl. simpl in IH. now rewrite IH.
Qed.

Lemma last_char_rstrip c s : last_char (Py.rstrip c s) <> Some c.
Proof.
  unfold last_char. induction s as [|d s IH]; [discriminate|]. simpl.
  destruct (Py.rstrip c s) as [|e t] eqn:E.
  - destruct (decide (d = c)) as [->|Hne].
    + now rewrite bool_decide_eq_true_2 by reflexivity.
    + rewrite bool_decide_eq_false_2 by exact Hne. simpl. congruence.
  - simpl chars. rewrite last_cons. simpl chars in IH.
    destruct (last (e :: chars t)) eqn:El; [exact IH|].
    apply last_None in El. discriminate.
Qed.

Lemma first_char_rstrip c s :
  first_char s <> Some c -> first_char (Py.rstrip c s) <> Some c.
Proof.
  destruct s as [|d s]; [discriminate|]. unfold first_char. simpl. intros Hd.
  destruct (Py.rstrip c s).
  - destruct (decide (d = c)) as [->|Hne]; [congruence|].
    now rewrite bool_decide_eq_false_2 by exact Hne.
  - exact Hd.
Qed.

Lemma chars_strip_incl c s x : In x (chars (Py.strip c s)) -> In x (chars s).
Proof.
  unfold Py.strip. intros Hin.
  destruct (chars_rstrip_prefix c (Py.lstrip c s)) as (suf & Hs & _).
  destruct (chars_lstrip_suffix c s) as (pre & Hp & _).
  rewrite Hp, Hs. apply in_or_app. right. apply in_or_app. now left.
Qed.

End SlugShape.

(** X1.  A slug candidate is URL-safe: each of its characters is
    alphanumeric or a hyphen, and it neither starts nor ends with a
    hyphen. *)
Theorem slug_candidate_url_safe slug title :
  Forall (fun c => slug_char c = true) (chars (Api.slug_candidate slug title))
  /\ first_char (Api.slug_candidate slug title) <> Some "-"%char
  /\ last_char (Api.slug_candidate slug title) <> Some "-"%char.
Proof.
  unfold Api.slug_candidate. split; [|split].
  - apply List.Forall_forall. intros x Hx. apply chars_strip_incl in Hx.
    rewrite chars_join_if in Hx. apply List.filter_In in Hx as [_ Hx]. exact Hx.
  - unfold Py.strip. apply first_char_rstrip, first_char_lstrip.
  - unfold Py.strip. apply last_char_rstrip.
Qed.

Section SlugFixpoint.

Lemma lstrip_id c s : first_char s <> Some c -> Py.lstrip c s = s.
Proof.
  destruct s as [|d s]; [reflexivity|]. unfold first_char. simpl. intros Hd.
  rewrite bool_decide_eq_false_2; [reflexivity | congruence].
Qed.

Lemma rstrip_id c s : last_char s <> Some c -> Py.rstrip c s = s.
Proof.
  unfold last_char. induction s as [|d s IH]; [reflexivity|]. simpl.
  destruct s as [|e t].
  - simpl. intros Hd. rewrite bool_decide_eq_false_2; [reflexivity | congruence].
  - intros Hl. rewrite IH; [reflexivity|]. simpl chars in *. now rewrite last_cons_cons in Hl.
Qed.

Lemma join_if_id f s : Forall (fun c => f c = true) (chars s) -> Py.join_if f s = s.
Proof.
  induction s as [|c s IH]; [reflexivity|]. simpl. intros H.
  apply Forall_cons_1 in H as [Hc H]. rewrite Hc. f_equal. auto.
Qed.

Lemma strip_empty_iff c s : Py.strip c s = EmptyString <-> Forall (fun d => d = c) (chars s).
Proof.
  split.
  - intros E. unfold Py.strip in E.
    destruct (chars_lstrip_suffix c s) as (pre & Hp & Hpre).
    destruct (chars_rstrip_prefix c (Py.lstrip c s)) as (suf & Hs & Hsuf).
    rewrite E in Hs. simpl in Hs. rewrite Hp, Hs. now apply Forall_app.
  - induction s as [|d s IH]; [reflexivity|]. simpl. intros H.
    apply Forall_cons_1 in H as [-> H]. unfold Py.strip. simpl.
    rewrite bool_decide_eq_true_2 by reflexivity. now apply IH.
Qed.

Lemma chars_lower s : chars (Py.lower s) = map Py.lower_char (chars s).
Proof. induction s as [|c s IH]; [reflexivity|]. simpl. now rewrite IH. Qed.

Lemma chars_replace a b s :
  chars (Py.replace a b s) = map (fun c => if bool_decide (c = a) then b else c) (chars s).
Proof. induction s as [|c s IH]; [reflexivity|]. simpl. now rewrite IH. Qed.

(** Lower-casing and the two replacements keep a character alphanumeric or
    not: checked on each of the 256 characters. *)
Lemma seed_char_isalnum c :
  Py.isalnum
    ((fun c => if bool_decide (c = "_"%char) then "-"%char else c)
       ((fun c => if bool_decide (c = " "%char) then "-"%char else c) (Py.lower_char c)))
  = Py.isalnum c.
Proof.
  destruct c as [[] [] [] [] [] [] [] []]; vm_compute; reflexivity.
Qed.

Lemma filter_nil_iff {A} (f : A -> bool) l :
  List.filter f l = [] <-> Forall (fun x => f x = false) l.
Proof.
  induction l as [|x l IH]; simpl; [split; [constructor | reflexivity]|].
  destruct (f x) eqn:E; split.
  - discriminate.
  - intros H. apply Forall_cons_1 in H as [H _]. congruence.
  - intros H. constructor; [exact E | now apply IH].
  - intros H. apply Forall_cons_1 in H as [_ H]. now apply IH.
Qed.

End SlugFixpoint.

(** X2.  Slugging is idempotent: a candidate that is not empty, given back
    as the caller's slug, is its own candidate whatever the title. *)
Theorem slug_candidate_idempotent slug title title' :
  Api.slug_candidate slug title <> "" ->
  Api.slug_candidate (Some (Api.slug_candidate slug title)) title'
  = Api.slug_candidate slug title.
Proof.
  intros Hne. destruct (slug_candidate_url_safe slug title) as (Hall & Hfirst & Hlast).
  set (c := Api.slug_candidate slug title) in *.
  unfold Api.slug_candidate at 1. unfold Py.or_else.
  destruct c as [|ch c'] eqn:E; [contradiction|]. cbn [Py.truthy]. rewrite <- E in *.
  change (fun c0 => Py.isalnum c0 || bool_decide (c0 = "-"%char)) with slug_char.
  rewrite join_if_id by exact Hall.
  unfold Py.strip. rewrite lstrip_id by exact Hfirst. now apply rstrip_id.
Qed.

Lemma slug_candidate_idempotent_witness :
  Api.slug_candidate None "Hello World" <> ""
  /\ Api.slug_candidate (Some "hello-world") "Another Title" = "hello-world".
Proof.
  assert (Api.slug_candidate None "Hello World" <> "") as Hne by discriminate.
  split; [exact Hne|].
  exact (slug_candidate_idempotent None "Hello World" "Another Title" Hne).
Defined.

(** X3.  Without a caller's slug, the candidate is empty exactly when the
    title has no alphanumeric character. *)
Theorem slug_candidate_empty_iff title :
  Api.slug_candidate None title = ""
  <-> Forall (fun c => Py.isalnum c = false) (chars title).
Proof.
  unfold Api.slug_candidate, Py.or_else.
  rewrite strip_empty_iff, chars_join_if, chars_replace, chars_replace, chars_lower.
  rewrite !map_map. split.
  - intros H. apply List.Forall_forall. intros c Hc.
    rewrite <- seed_char_isalnum.
    set (g := fun x => if bool_decide
                 ((if bool_decide (Py.lower_char x = " "%char) then "-"%char
                   else Py.lower_char x) = "_"%char)
               then "-"%char
               else if bool_decide (Py.lower_char x = " "%char) then "-"%char
                    else Py.lower_char x) in *.
    change (Py.isalnum (g c) = false).
    destruct (Py.isalnum (g c)) eqn:Ea; [|reflexivity].
    rewrite List.Forall_forall in H.
    assert (g c = "-"%char) as Hg.
    { apply H. apply List.filter_In. split; [now apply in_map|]. now rewrite Ea. }
    rewrite Hg in Ea. discriminate.
  - intros H. apply List.Forall_forall. intros x Hx.
    apply List.filter_In in Hx as [Hx Hk]. apply in_map_iff in Hx as (c & <- & Hc).
    rewrite List.Forall_forall in H. specialize (H c Hc).
    rewrite <- seed_char_isalnum in H.
    apply orb_prop in Hk as [Hk|Hk]; [|now apply bool_decide_eq_true in Hk].
    cbv beta in H. congruence.
Qed.

(** ** What a session can reach *)

Section Reachability.





End Reachability.

(** X4.  Whatever requests a session makes from the empty database, the
    store it reaches meets the constraints of the schema: post slugs, tag
    names, tag slugs, usernames and emails are unique and the post ids come
    from the supply. *)
Theorem reachable_store_consistent hash reqs resps s :
  App.serve hash reqs empty_store = Some (resps, s) -> consistent s.
Proof.
  intros H. eapply serve_consistent; [|exact H]. exact empty_store_consistent.
Qed.

Lemma reachable_store_consistent_witness :
  exists resps s,
    App.serve (fun p => p) small_session empty_store = Some (resps, s)
    /\ map status resps = [201; 201; 201; 201]
    /\ consistent s.
Proof.
  destruct (App.serve (fun p => p) small_session empty_store) as [[resps s]|] eqn:E;
    [|vm_compute in E; discriminate].
  exists resps, s. split; [reflexivity|]. split.
  - vm_compute in E. injection E as <- _. reflexivity.
  - exact (reachable_store_consistent (fun p => p) small_session resps s E).
Defined.



(** ** The answers of post creation *)

Ltac split_answers :=
  repeat match goal with
         | |- _ /\ _ => split
         | |- _ <-> _ => split
         end;
  try (intros H; discriminate H); auto.



(** ** What PUT and DELETE touch *)

Section Mutations.

Lemma filter_update_others (pid : Id) (f : Post.t -> Post.t) (l : list Post.t) :
  (forall p, Post.id (f p) = Post.id p) ->
  List.filter (fun p => negb (bool_decide (Post.id p = pid)))
    (map (fun p => if bool_decide (Post.id p = pid) then f p else p) l)
  = List.filter (fun p => negb (bool_decide (Post.id p = pid))) l.
Proof.
  intros Hf. induction l as [|p l IH]; [reflexivity|]. simpl.
  destruct (bool_decide (Post.id p = pid)) eqn:E.
  - rewrite Hf, E. simpl. exact IH.
  - rewrite E. simpl. now rewrite IH.
Qed.

End Mutations.

(** X7.  A PUT on a post, whatever its body (a [slug] key included) and
    whoever sends it, never changes the id, the slug, the owner or the
    creation date of any post, never adds or removes a post, leaves the
    other posts exactly as they were, and touches no other table. *)
Theorem update_post_keeps_identity hash now pid data r s :
  exists resp s',
    App.dispatch hash now (App.PUT_api_post pid data) r s = Some (resp, s')
    /\ map post_identity (posts s') = map post_identity (posts s)
    /\ List.filter (fun p => negb (bool_decide (Post.id p = pid))) (posts s')
       = List.filter (fun p => negb (bool_decide (Post.id p = pid))) (posts s)
    /\ users s' = users s /\ tags s' = tags s /\ comments s' = comments s
    /\ post_tags s' = post_tags s /\ next_uuid s' = next_uuid s.
Proof.
  destruct (dispatch_total hash now (App.PUT_api_post pid data) r s) as ([resp s'] & H).
  exists resp, s'. split; [exact H|].
  apply put_outcome in H as [(_ & d & -> & ->)|(_ & ->)]; [|repeat split].
  unfold Db.update_post. simpl. repeat split.
  - rewrite map_map. apply map_ext. intros p. now destruct (bool_decide _).
  - now apply filter_update_others.
Qed.

(** X8.  A DELETE either answers 200 or leaves the store as it was.  When
    it answers 200 the post is gone together with its comments and only
    those: the comments of the other posts stay, in order, as do the other
    posts, the users and the tags; afterwards the comment endpoints of the
    deleted post answer 404. *)
Theorem delete_post_cascade hash now pid r s :
  exists resp s',
    App.dispatch hash now (App.DELETE_api_post pid) r s = Some (resp, s')
    /\ (status resp = 200 \/ s' = s)
    /\ (status resp = 200 ->
          posts s' = List.filter (fun p => negb (bool_decide (Post.id p = pid))) (posts s)
          /\ comments s'
             = List.filter (fun c => negb (bool_decide (Comment.post_id c = pid))) (comments s)
          /\ Forall (fun c => Comment.post_id c <> pid) (comments s')
          /\ users s' = users s /\ tags s' = tags s
          /\ (forall now' d r',
                App.dispatch hash now' (App.POST_api_post_comments pid d) r' s'
                = Some (Flask.not_found, s'))
          /\ (forall now' r',
                App.dispatch hash now' (App.GET_api_post_comments pid) r' s'
                = Some (Flask.not_found, s'))).
Proof.
  unfold App.dispatch, Flask.jwt_required, Flask.jwt_required_with, Api.delete_post.
  destruct (Flask.token r) as [uid|msg|msg];
    [|do 2 eexists; split; [reflexivity|]; split; [now right | discriminate]
     |do 2 eexists; split; [reflexivity|]; split; [now right | discriminate]].
  unfold Flask.get_jwt_identity. cbn [Flask.jwt_identity].
  destruct (Db.get_post s pid) as [post|];
    [|do 2 eexists; split; [reflexivity|]; split; [now right | discriminate]].
  destruct (Api.permission_denied post uid (Db.get_user s uid)) as [e|[|]];
    try (do 2 eexists; split; [reflexivity|]; split; [now right | discriminate]).
  do 2 eexists. split; [reflexivity|]. split; [now left|]. intros _.
  repeat split.
  - apply List.Forall_forall. intros c Hc. simpl in Hc.
    apply List.filter_In in Hc as [_ Hc]. apply negb_true_iff in Hc.
    now apply bool_decide_eq_false in Hc.
  - intros now' d r'. unfold Flask.undecorated, Api.create_comment.
    now rewrite get_post_deleted.
  - intros now' r'. unfold Flask.undecorated, Api.get_post_comments.
    now rewrite get_post_deleted.
Qed.

(** ** Who is an admin, and who can approve *)

Section Privileges.

Lemma admin_ids_update s i f :
  (forall u, User.id (f u) = User.id u) -> (forall u, User.is_admin (f u) = User.is_admin u) ->
  admin_ids (Account.update_user s i f) = admin_ids s.
Proof.
  intros Hid Hadm. unfold admin_ids, Account.update_user. simpl users.
  induction (users s) as [|u l IH]; [reflexivity|]. simpl.
  destruct (bool_decide (User.id u = i)).
  - rewrite Hadm. destruct (User.is_admin u); simpl; now rewrite ?Hid, IH.
  - destruct (User.is_admin u); simpl; now rewrite IH.
Qed.

Lemma dispatch_users hash now c r s resp s' :
  App.dispatch hash now c r s = Some (resp, s') ->
  users s' = users s
  \/ exists u, users s' = users s ++ [u] /\ User.is_admin u = false.
Proof.
  destruct c; simpl;
    unfold Flask.undecorated, Flask.jwt_required, Api.admin_required, Flask.jwt_required,
      Flask.jwt_required_with,
      Api.get_posts, Api.create_post, Api.get_post, Api.update_post, Api.delete_post,
      Api.get_tags, Api.create_tag, Api.get_post_comments, Api.create_comment,
      Api.get_all_users, Api.get_all_comments, Api.approve_comment,
      Main.get_posts, Main.get_post, Main.get_tags, Main.get_posts_by_tag, Main.list_filter_by,
      Auth.register,
      Db.add_post, Db.add_tag, Db.add_user;
    intros H; repeat case_match; simplify_eq; try (left; reflexivity).
  right. eexists. split; reflexivity.
Qed.

End Privileges.

(** X9.  No endpoint makes or unmakes an admin: the admins of the store
    are the same, in the same order, after any request of the route table,
    after a login and after a change of password. *)
Theorem admins_never_change gen check now r s :
  (forall c resp s',
     App.dispatch gen now c r s = Some (resp, s') -> admin_ids s' = admin_ids s)
  /\ (forall data, admin_ids (snd (Account.login_route check now data r s)) = admin_ids s)
  /\ (forall data,
        admin_ids (snd (Account.change_password_route gen check now data r s)) = admin_ids s)
  /\ (forall refresh_bearer,
        snd (Account.refresh_route refresh_bearer r s) = s)
  /\ snd (Account.get_current_user_route r s) = s
  /\ snd (Account.logout_route r s) = s.
Proof.
  split; [|split; [|split; [|split; [|split]]]].
  - intros c resp s' H. apply dispatch_users in H as [H|(u & H & Hu)];
      unfold admin_ids; rewrite H; [reflexivity|].
    rewrite List.filter_app. simpl. rewrite Hu. now rewrite app_nil_r.
  - intros data. unfold Account.login_route, Flask.undecorated, Account.login.
    repeat case_match; simpl; try reflexivity.
    apply admin_ids_update; reflexivity.
  - intros data. unfold Account.change_password_route, Flask.jwt_required_with,
      Account.change_password, Account.refused.
    repeat case_match; simpl; try reflexivity.
    apply admin_ids_update; reflexivity.
  - intros rb. unfold Account.refresh_route, Account.refresh, Account.refused.
    repeat case_match; reflexivity.
  - unfold Account.get_current_user_route, Flask.jwt_required_with,
      Account.get_current_user, Account.refused.
    repeat case_match; reflexivity.
  - unfold Account.logout_route, Flask.jwt_required_with, Account.logout, Account.refused.
    repeat case_match; reflexivity.
Qed.

(** X10.  Only an admin makes a comment visible: after any request whose
    caller is not an admin of the store, every approved comment of the
    store was an approved comment before. *)
Theorem only_admins_approve hash now c r s resp s' :
  ~ caller_is_admin r s ->
  App.dispatch hash now c r s = Some (resp, s') ->
  Forall (fun x => Comment.is_approved x = true -> In x (comments s)) (comments s').
Proof.
  intros Hcaller H.
  assert (Forall (fun x => Comment.is_approved x = true -> In x (comments s)) (comments s))
    as Hsame by (apply List.Forall_forall; auto).
  destruct c; simpl in H;
    unfold Flask.undecorated, Flask.jwt_required, Api.admin_required, Flask.jwt_required,
      Flask.jwt_required_with,
      Api.get_posts, Api.create_post, Api.get_post, Api.update_post, Api.delete_post,
      Api.get_tags, Api.create_tag, Api.get_post_comments, Api.create_comment,
      Api.get_all_users, Api.get_all_comments, Api.approve_comment,
      Main.get_posts, Main.get_post, Main.get_tags, Main.get_posts_by_tag, Main.list_filter_by,
      Auth.register,
      Db.add_post, Db.add_tag, Db.add_user in H;
    repeat case_match; simplify_eq; try exact Hsame; simpl comments.
  - apply List.Forall_forall. intros x Hx _. now apply List.filter_In in Hx as [Hx _].
  - apply Forall_app. split; [exact Hsame|]. constructor; [|constructor]. discriminate.
  - exfalso. apply Hcaller.
    match goal with
    | Hb : Flask.token r = Flask.Access ?i, Hu : Db.get_user s _ = Some ?u |- _ =>
        exists i, u; repeat split; [unfold Flask.bearer; now rewrite Hb | | ]
    end.
    + unfold Flask.get_jwt_identity in *. simpl in *. now simplify_eq.
    + match goal with Ha : negb (User.is_admin _) = false |- _ =>
        now apply negb_false_iff in Ha end.
Qed.

Lemma only_admins_approve_witness :
  ~ caller_is_admin (as_user 2) moderated_blog
  /\ App.dispatch (fun p => p) 7 (App.POST_api_admin_comment_approve 20) (as_user 2)
       moderated_blog
     = Some (mkResponse 403 (Error "Admin privileges required"), moderated_blog)
  /\ Forall (fun x => Comment.is_approved x = true -> In x (comments moderated_blog))
       (comments moderated_blog).
Proof.
  assert (~ caller_is_admin (as_user 2) moderated_blog) as Hcaller.
  { intros (uid & u & Hb & Hu & Ha). injection Hb as <-.
    vm_compute in Hu. injection Hu as <-. discriminate Ha. }
  assert (App.dispatch (fun p => p) 7 (App.POST_api_admin_comment_approve 20) (as_user 2)
            moderated_blog
          = Some (mkResponse 403 (Error "Admin privileges required"), moderated_blog))
    as Hd by reflexivity.
  split; [exact Hcaller | split; [exact Hd|]].
  exact (only_admins_approve _ _ _ _ _ _ _ Hcaller Hd).
Defined.

(** ** From a comment to the public listing *)

(** X11.  A new comment is not listed until it is approved: the public
    listing of the post is the same after the comment is created, and after
    an admin approves it the listing is the former one followed by the
    comment, approved.  (The ids of the existing comments are below the
    supply.) *)
Theorem comment_hidden_until_approved hash now now' pid d r r' s post admin :
  Db.get_post s pid = Some post ->
  Json.comment_content d <> None ->
  Forall (fun c => Comment.id c < next_uuid s) (comments s) ->
  Flask.bearer r' = Some (User.id admin) ->
  Db.get_user s (User.id admin) = Some admin ->
  User.is_admin admin = true ->
  exists c s1 s2,
    App.dispatch hash now (App.POST_api_post_comments pid (Some d)) r s
    = Some (mkResponse 201 (CommentMessage "Comment created successfully" c), s1)
    /\ Comment.is_approved c = false
    /\ public_comments pid s1 = public_comments pid s
    /\ App.dispatch hash now' (App.POST_api_admin_comment_approve (Comment.id c)) r' s1
       = Some (mkResponse 200 (Message "Comment approved successfully"), s2)
    /\ public_comments pid s2 = public_comments pid s ++ [approved c].
Proof.
  intros Hpost Hcontent Hids Hr Hu Ha.
  set (c := anonymous_comment s now pid d).
  exists c, (Db.add_comment s c), (Db.update_comment (Db.add_comment s c) (Comment.id c) approved).
  split; [now apply (create_comment_served hash now pid d r s post)|].
  split; [reflexivity|]. split; [|split].
  - unfold public_comments, Db.add_comment. simpl comments.
    rewrite List.filter_app. simpl. rewrite andb_false_r. now rewrite app_nil_r.
  - unfold App.dispatch.
    rewrite (admin_required_admin _ r' (Db.add_comment s c) admin Hr Hu Ha).
    unfold Api.approve_comment.
    assert (Db.get_comment (Db.add_comment s c) (Comment.id c) = Some c) as ->; [|reflexivity].
    unfold Db.get_comment, Db.first, Db.add_comment. simpl comments.
    apply find_app_last; [|now apply bool_decide_eq_true].
    destruct (find _ _) as [x|] eqn:E; [|reflexivity].
    apply find_some in E as [Hin Hx]. apply bool_decide_eq_true in Hx.
    rewrite List.Forall_forall in Hids. apply Hids in Hin. simpl in Hx. lia.
  - unfold public_comments, Db.update_comment, Db.add_comment. simpl comments.
    rewrite map_app, List.filter_app. simpl map.
    rewrite (bool_decide_eq_true_2 (Comment.id c = Comment.id c) eq_refl).
    f_equal.
    + f_equal. rewrite <- (map_id (comments s)) at 2. apply map_ext_in.
      intros x Hx. rewrite List.Forall_forall in Hids. apply Hids in Hx.
      rewrite bool_decide_eq_false_2; [reflexivity | simpl; lia].
    + simpl. rewrite (bool_decide_eq_true_2 (pid = pid) eq_refl). reflexivity.
Qed.

Lemma comment_hidden_until_approved_witness :
  exists c s1 s2,
    App.dispatch (fun p => p) 5 (App.POST_api_post_comments 10 (comment_json "second"))
      anonymous moderated_blog
    = Some (mkResponse 201 (CommentMessage "Comment created successfully" c), s1)
    /\ public_comments 10 s1 = []
    /\ App.dispatch (fun p => p) 6 (App.POST_api_admin_comment_approve (Comment.id c))
         (as_user 3) s1
       = Some (mkResponse 200 (Message "Comment approved successfully"), s2)
    /\ public_comments 10 s2 = [approved c].
Proof.
  destruct (comment_hidden_until_approved (fun p => p) 5 6 10
              (Json.mkComment (Some "second") None None false) anonymous (as_user 3)
              moderated_blog
              (Post.mk 10 "Hello World" "x" "" "hello-world" true (Some 1) 1 1 1)
              (User.mk 3 "carol" "carol@x.com" "h" "" "" true true 0 0 None))
    as (c & s1 & s2 & H1 & _ & H2 & H3 & H4).
  - reflexivity.
  - discriminate.
  - repeat constructor.
  - reflexivity.
  - reflexivity.
  - reflexivity.
  - exists c, s1, s2. split; [exact H1|]. split; [exact H2|]. split; [exact H3 | exact H4].
Defined.

(** ** What the listings show *)

Section Listings.




End Listings.


(** ** Walking the pages *)

Section Pages.

Lemma concat_pages {A} (n : nat) : forall (k : nat) (l : list A),
  length l <= k * n ->
  concat (map (fun i => take n (drop (i * n) l)) (seq 0 k)) = l.
Proof.
  induction k as [|k IH]; intros l Hlen.
  - destruct l; [reflexivity | simpl in Hlen; lia].
  - cbn [seq map concat]. rewrite <- List.seq_shift, map_map.
    rewrite Nat.mul_0_l, drop_0.
    transitivity (take n l ++ drop n l); [|apply take_drop]. f_equal.
    transitivity (concat (map (fun i => take n (drop (i * n) (drop n l))) (seq 0 k))).
    + f_equal. apply map_ext. intros i. rewrite drop_drop. do 2 f_equal; lia.
    + apply IH. rewrite length_drop. lia.
Qed.

Lemma paginate_items {A} (rows : list A) (i : nat) (per_page : Z) :
  Db.items (Db.paginate rows (Z.of_nat (S i)) per_page)
  = take (page_size per_page) (drop (i * page_size per_page) rows).
Proof.
  unfold Db.paginate, page_size. cbn [Db.items].
  destruct (Z.ltb_spec (Z.of_nat (S i)) 1) as [Hlt|_]; [lia|].
  set (pp := if (per_page <? 1)%Z then 20%Z else per_page).
  assert (1 <= pp)%Z as Hpp by (unfold pp; destruct (Z.ltb_spec per_page 1); lia).
  do 2 f_equal. nia.
Qed.

End Pages.

(** X13.  For a page size and a user table within the 64-bit range of the
    LIMIT and OFFSET the query binds, every page of the walk from page 1
    to the last page reported is within that range, and the walk shows
    every user exactly once, in table order.  No page within the range
    holds more users than the page size in force, and a table that is not
    empty reports at least one page. *)
Theorem users_pages_cover per_page s :
  (per_page <= Db.max_int)%Z ->
  (Z.of_nat (length (users s)) <= Db.max_int)%Z ->
  (forall i, i < users_pages per_page s -> Db.bindable (Z.of_nat (S i)) per_page)
  /\ concat (map (fun i => users_page (Z.of_nat (S i)) per_page s)
               (seq 0 (users_pages per_page s)))
     = users s
  /\ (forall page, Db.bindable page per_page ->
      length (users_page page per_page s) <= page_size per_page)
  /\ (users s <> [] -> 0 < users_pages per_page s).
Proof.
  intros Hpp Hlen.
  unfold users_page, users_pages, Api.get_all_users, page_request. cbv zeta.
  cbn [fst body Flask.args arg_page arg_per_page Flask.int_arg default]. unfold id.
  pose proof (page_size_pos per_page) as Hn.
  split; [|split; [|split]].
  - intros i Hi. unfold Db.paginate in Hi. cbn [Db.pages] in Hi.
    fold (page_size per_page) in Hi.
    destruct (Nat.eqb_spec (length (users s)) 0) as [E|E]; [lia|].
    pose proof (ceil_div_least (length (users s)) _ Hn ltac:(lia)) as Hc.
    assert (i * page_size per_page < length (users s)) as Hoff by nia.
    unfold Db.bindable. cbv zeta.
    destruct (Z.ltb_spec (Z.of_nat (S i)) 1) as [Hlt|_]; [lia|].
    unfold page_size in Hoff, Hn.
    destruct (Z.ltb_spec per_page 1) as [_|Hge].
    + split; [unfold Db.max_int; lia|]. unfold Db.max_int in *. lia.
    + split; [exact Hpp|]. unfold Db.max_int in *. nia.
  - erewrite map_ext; [|intros i; apply paginate_items].
    apply concat_pages. unfold Db.paginate. cbn [Db.pages].
    fold (page_size per_page).
    destruct (Nat.eqb_spec (length (users s)) 0) as [->|_]; [lia|].
    apply ceil_div_covers, Hn.
  - intros page _. unfold Db.paginate. cbn [Db.items]. fold (page_size per_page).
    rewrite length_take. lia.
  - intros Hne. unfold Db.paginate. cbn [Db.pages]. fold (page_size per_page).
    destruct (Nat.eqb_spec (length (users s)) 0) as [E|E].
    + destruct (users s); [contradiction | discriminate].
    + pose proof (ceil_div_covers (length (users s)) _ Hn) as Hc.
      destruct ((length (users s) + page_size per_page - 1) / page_size per_page); lia.
Qed.

Lemma users_pages_cover_witness :
  users_pages 1 blog = 2
  /\ users_page 1 1 blog ++ users_page 2 1 blog = users blog.
Proof.
  destruct (users_pages_cover 1 blog) as (_ & Hwalk & _).
  - unfold Db.max_int. lia.
  - unfold Db.max_int. simpl. lia.
  - split; [reflexivity | exact Hwalk].
Defined.

(** ** The addresses [validate_email] accepts *)

Lemma chars_append a b : chars (a +:+ b) = chars a ++ chars b.
Proof.
  induction a as [|c a IH]; [reflexivity|]. rewrite append_cons. simpl. now rewrite IH.
Qed.

Lemma length_join_if f s : String.length (Py.join_if f s) <= String.length s.
Proof.
  induction s as [|c s IH]; [reflexivity|]. simpl. destruct (f c); simpl; lia.
Qed.

Lemma all_chars_spec f s :
  Auth.all_chars f s = true <-> Forall (fun c => f c = true) (chars s).
Proof.
  unfold Auth.all_chars. rewrite bool_decide_eq_true. split; [|apply join_if_id].
  induction s as [|c s IH]; [constructor|]. simpl. destruct (f c) eqn:E.
  - intros [= H]. constructor; auto.
  - intros H. pose proof (length_join_if f s) as L. rewrite H in L. simpl in L. lia.
Qed.

Lemma split_first_sound c s a b :
  Auth.split_first c s = Some (a, b) -> s = a +:+ String c b /\ ~ In c (chars a).
Proof.
  revert a. induction s as [|d s IH]; intros a; simpl; [discriminate|].
  destruct (decide (d = c)) as [->|Hne].
  - rewrite bool_decide_eq_true_2 by reflexivity. intros [= <- <-]. split; [reflexivity|].
    intros [].
  - rewrite bool_decide_eq_false_2 by exact Hne.
    destruct (Auth.split_first c s) as [[a' b']|]; [|discriminate]. intros [= <- <-].
    destruct (IH a' eq_refl) as [-> Hn]. split; [reflexivity|].
    simpl. intros [H|H]; [congruence | contradiction].
Qed.

Lemma split_first_complete c a b :
  ~ In c (chars a) -> Auth.split_first c (a +:+ String c b) = Some (a, b).
Proof.
  induction a as [|d a IH]; intros Hn.
  - change (EmptyString +:+ String c b) with (String c b). simpl.
    now rewrite bool_decide_eq_true_2 by reflexivity.
  - rewrite append_cons. simpl. simpl in Hn.
    rewrite bool_decide_eq_false_2 by (intros ->; apply Hn; now left).
    rewrite IH; [reflexivity|]. intros H. apply Hn. now right.
Qed.

Lemma split_last_none c s : ~ In c (chars s) -> Auth.split_last c s = None.
Proof.
  induction s as [|d s IH]; [reflexivity|]. simpl. intros Hn.
  rewrite IH by (intros H; apply Hn; now right).
  now rewrite bool_decide_eq_false_2 by (intros ->; apply Hn; now left).
Qed.

Lemma split_last_none_inv c s : Auth.split_last c s = None -> ~ In c (chars s).
Proof.
  induction s as [|d s IH]; simpl; [intros _ []|].
  destruct (Auth.split_last c s) as [[? ?]|]; [discriminate|].
  destruct (decide (d = c)) as [->|Hne].
  - now rewrite bool_decide_eq_true_2 by reflexivity.
  - intros _ [H|H]; [congruence | now apply IH].
Qed.

Lemma split_last_sound c s a b :
  Auth.split_last c s = Some (a, b) -> s = a +:+ String c b /\ ~ In c (chars b).
Proof.
  revert a. induction s as [|d s IH]; intros a; simpl; [discriminate|].
  destruct (Auth.split_last c s) as [[a' b']|] eqn:E.
  - intros [= <- <-]. destruct (IH a' eq_refl) as [-> Hn]. split; [reflexivity | exact Hn].
  - destruct (decide (d = c)) as [->|Hne].
    + rewrite bool_decide_eq_true_2 by reflexivity. intros [= <- <-]. split; [reflexivity|].
      now apply split_last_none_inv.
    + now rewrite bool_decide_eq_false_2 by exact Hne.
Qed.

Lemma split_last_complete c a b :
  ~ In c (chars b) -> Auth.split_last c (a +:+ String c b) = Some (a, b).
Proof.
  intros Hn. induction a as [|d a IH].
  - change (EmptyString +:+ String c b) with (String c b). simpl.
    rewrite (split_last_none c b Hn). now rewrite bool_decide_eq_true_2 by reflexivity.
  - rewrite append_cons. simpl. now rewrite IH.
Qed.

Lemma chomp_cons c d r : Auth.chomp (String c (String d r)) = String c (Auth.chomp (String d r)).
Proof. reflexivity. Qed.

Lemma chomp_newline x : Auth.chomp (x +:+ newline) = x.
Proof.
  induction x as [|c x IH]; [reflexivity|]. rewrite append_cons.
  destruct (x +:+ newline) as [|d r] eqn:E.
  - destruct x; discriminate E.
  - rewrite chomp_cons. now rewrite IH.
Qed.

Lemma chomp_cases e : e = Auth.chomp e \/ e = Auth.chomp e +:+ newline.
Proof.
  induction e as [|c e IH]; [now left|].
  destruct e as [|d e].
  - simpl. destruct (decide (c = "010"%char)) as [->|Hne].
    + rewrite bool_decide_eq_true_2 by reflexivity. now right.
    + rewrite bool_decide_eq_false_2 by exact Hne. now left.
  - rewrite chomp_cons. destruct IH as [IH|IH].
    + left. now rewrite <- IH.
    + right. rewrite append_cons. now rewrite <- IH.
Qed.

Lemma chomp_id e : last_char e <> Some "010"%char -> Auth.chomp e = e.
Proof.
  intros Hl. destruct (chomp_cases e) as [H|H]; [now rewrite <- H|].
  exfalso. apply Hl. rewrite H. unfold last_char. rewrite chars_append.
  simpl. now rewrite last_snoc.
Qed.

Lemma letter_not_special c :
  Auth.ascii_letter c = true ->
  c <> "010"%char /\ c <> "."%char /\ c <> "@"%char.
Proof.
  intros H. repeat split; intros ->; discriminate H.
Qed.

Lemma full_match_sound x : Auth.full_match x = true -> well_formed_email x.
Proof.
  unfold Auth.full_match.
  destruct (Auth.split_first "@" x) as [[loc rest]|] eqn:E1; [|discriminate].
  destruct (Auth.split_last "." rest) as [[dom tld]|] eqn:E2; [|discriminate].
  intros H. repeat (apply andb_prop in H as [H ?]).
  apply split_first_sound in E1 as [-> _]. apply split_last_sound in E2 as [-> _].
  exists loc, dom, tld. split; [reflexivity|].
  repeat split; try (now apply all_chars_spec).
  - intros ->. discriminate.
  - intros ->. discriminate.
  - now apply Nat.leb_le.
Qed.

Lemma full_match_complete x : well_formed_email x -> Auth.full_match x = true.
Proof.
  intros (loc & dom & tld & -> & Hloc & Hl & Hdom & Hd & Ht & Hlen).
  unfold Auth.full_match. rewrite split_first_complete.
  - rewrite split_last_complete.
    + apply all_chars_spec in Hl, Hd, Ht. rewrite Hl, Hd, Ht.
      apply Nat.leb_le in Hlen. rewrite Hlen.
      destruct loc; [contradiction|]. destruct dom; [contradiction|]. reflexivity.
    + intros Hin. rewrite List.Forall_forall in Ht. apply Ht in Hin.
      now apply letter_not_special in Hin.
  - intros Hin. rewrite List.Forall_forall in Hl. apply Hl in Hin. discriminate Hin.
Qed.

Lemma well_formed_last x : well_formed_email x -> last_char x <> Some "010"%char.
Proof.
  intros (loc & dom & tld & -> & _ & _ & _ & _ & Ht & Hlen).
  unfold last_char. rewrite chars_append. simpl chars. rewrite chars_append. simpl chars.
  destruct (chars tld) as [|z l] eqn:E using rev_ind.
  - destruct tld; [simpl in Hlen; lia | discriminate].
  - rewrite !app_comm_cons, !app_assoc, last_snoc.
    apply Forall_app in Ht as [_ Ht]. apply Forall_cons_1 in Ht as [Ht _].
    apply letter_not_special in Ht. intros [= ->]. now destruct Ht.
Qed.

(** X14.  [validate_email] accepts exactly the addresses [local@domain.tld]
    whose local part is a non-empty run of ASCII letters, digits and
    [._%+-], whose domain is a non-empty run of ASCII letters, digits, dots
    and hyphens, and whose last label is two or more ASCII letters, and
    such an address followed by one line feed. *)
Theorem validate_email_iff e :
  Auth.validate_email e = true
  <-> well_formed_email e \/ exists x, e = x +:+ newline /\ well_formed_email x.
Proof.
  unfold Auth.validate_email. split.
  - intros H. apply full_match_sound in H.
    destruct (chomp_cases e) as [E|E].
    + left. now rewrite E.
    + right. exists (Auth.chomp e). split; [exact E | exact H].
  - intros [H|(x & -> & H)].
    + rewrite chomp_id by now apply well_formed_last. now apply full_match_complete.
    + rewrite chomp_newline. now apply full_match_complete.
Qed.

(** ** Registration *)

Lemma missing_false f :
  Json.missing f = false -> exists v, f = Some v /\ v <> EmptyString /\ Json.get_str f = v.
Proof.
  destruct f as [v|]; [|discriminate]. simpl. intros H. exists v.
  repeat split. intros ->. discriminate H.
Qed.

Lemma duplicate_found s d :
  passes_validation d ->
  duplicate s d
  <-> Py.found (Db.user_by_username s (Json.get_str (Json.username d))) = true
      \/ Py.found (Db.user_by_email s (Json.get_str (Json.email d))) = true.
Proof.
  intros (Hu & He & _).
  apply missing_false in Hu as (u & Hu & _ & Hgu), He as (e & He & _ & Hge).
  rewrite Hgu, Hge. unfold duplicate, Db.user_by_username, Db.user_by_email.
  rewrite (first_col_found User.username), (first_col_found User.email).
  rewrite Hu, He. split.
  - intros [(u' & [= <-] & H)|(e' & [= <-] & H)]; auto.
  - intros [H|H]; [left | right]; eauto.
Qed.

(** [register] either refuses with a 400 and leaves the store as it was,
    or inserts the new row; the [except] branch of its commit is not
    reached, the two look-ups before it being the unique columns. *)
Lemma register_outcome gen now data r s :
  (~ registrable s data
   /\ exists e, App.dispatch gen now (App.POST_auth_register data) r s
                = Some (mkResponse 400 (Error e), s))
  \/ (exists d, data = Some d /\ passes_validation d /\ ~ duplicate s d
        /\ App.dispatch gen now (App.POST_auth_register data) r s
           = Some (mkResponse 201
                     (Registered "User registered successfully" (registered_user gen now s d)
                        (next_uuid s) (next_uuid s)),
                   with_user s (registered_user gen now s d))).
Proof.
  unfold App.dispatch, Flask.undecorated, Auth.register, registrable.
  destruct data as [d|];
    [|left; split; [intros (d & [=] & _) | eexists; reflexivity]].
  destruct (Json.missing (Json.username d)) eqn:Eu.
  { left. split; [intros (? & [= <-] & (? & _) & _); congruence|].
    destruct (negb _); eexists; reflexivity. }
  assert (negb (Json.truthy_user (Some d)) = false) as ->.
  { apply missing_false in Eu as (u & Hu & _). simpl. now rewrite Hu. }
  destruct (Json.missing (Json.email d)) eqn:Ee.
  { left. split; [intros (? & [= <-] & (_ & ? & _) & _); congruence | eexists; reflexivity]. }
  destruct (Json.missing (Json.password d)) eqn:Ep.
  { left. split; [intros (? & [= <-] & (_ & _ & ? & _) & _); congruence | eexists; reflexivity]. }
  destruct (Auth.validate_email _) eqn:Ev; simpl negb; cbv iota.
  2:{ left. split; [intros (? & [= <-] & (_ & _ & _ & ?) & _); congruence | eexists; reflexivity]. }
  assert (passes_validation d) as Hok by (repeat split; assumption).
  pose proof (duplicate_found s d Hok) as Hdup.
  destruct (Py.found (Db.user_by_username _ _)) eqn:Fu.
  { left. split; [intros (? & [= <-] & _ & Hn); apply Hn, Hdup; now left | eexists; reflexivity]. }
  destruct (Py.found (Db.user_by_email _ _)) eqn:Fe.
  { left. split; [intros (? & [= <-] & _ & Hn); apply Hn, Hdup; now right | eexists; reflexivity]. }
  right. exists d. split; [reflexivity|]. split; [exact Hok|]. split.
  { rewrite Hdup. intros [H|H]; discriminate H. }
  unfold Db.add_user. cbn [User.username User.email]. rewrite Fu, Fe. reflexivity.
Qed.


(** ** Logging in *)

Lemma login_first_match check now x p r s user :
  x <> EmptyString -> p <> EmptyString ->
  Account.user_by_login s x = Some user ->
  Account.login_route check now (login_json x p) r s
  = if negb (check (User.password_hash user) p)
    then (Account.mkResponse 401 (Account.Error "Invalid credentials"), s)
    else if negb (User.is_active user)
    then (Account.mkResponse 401 (Account.Error "Account is deactivated"), s)
    else (Account.mkResponse 200
            (Account.Session "Login successful" (Account.logged_in now user)
               (User.id user) (User.id user)),
          Account.update_user s (User.id user) (Account.logged_in now)).
Proof.
  intros Hx Hp Hfind. unfold Account.login_route, Flask.undecorated, Account.login, login_json.
  cbn [Account.truthy_credentials Account.username_or_email Account.password Json.has
       orb negb Json.missing Json.get_str default].
  unfold id. rewrite Hfind.
  destruct x; [contradiction|]. destruct p; [contradiction|]. reflexivity.
Qed.

Lemma first_col_absent {A B} `{EqDecision B} (col : A -> B) (rows : list A) (v : B) :
  ~ In v (map col rows) -> Db.first (fun x => bool_decide (col x = v)) rows = None.
Proof.
  intros Hn. destruct (Db.first _ rows) as [x|] eqn:E; [|reflexivity].
  exfalso. apply Hn, (first_col_found col). now rewrite E.
Qed.

Lemma find_app_none {A} (f : A -> bool) (l : list A) (x : A) :
  find f l = None -> f x = false -> find f (l ++ [x]) = None.
Proof.
  induction l as [|y l IH]; simpl; intros Hl Hx.
  - now rewrite Hx.
  - destruct (f y); [discriminate | auto].
Qed.

(** The row [login] picks is a row of the table whose username or email
    is the name sent. *)
Lemma user_by_login_some s x u :
  Account.user_by_login s x = Some u ->
  In u (users s) /\ (User.username u = x \/ User.email u = x).
Proof.
  unfold Account.user_by_login, Db.user_by_username, Db.user_by_email, Db.first.
  destruct (find _ (users s)) as [v|] eqn:E.
  - intros [= <-]. apply find_some in E as [Hin Hv].
    apply bool_decide_eq_true in Hv. auto.
  - intros E'. apply find_some in E' as [Hin Hv].
    apply bool_decide_eq_true in Hv. auto.
Qed.

Lemma login_match_appended s u x :
  (User.username u = x \/ User.email u = x) ->
  ~ In x (map User.username (users s)) -> ~ In x (map User.email (users s)) ->
  Account.user_by_login (with_user s u) x = Some u.
Proof.
  intros Hu Hn He.
  apply (first_col_absent User.username) in Hn. apply (first_col_absent User.email) in He.
  unfold Account.user_by_login, Db.user_by_username, Db.user_by_email, Db.first, with_user
    in *. cbn [users].
  destruct (decide (User.username u = x)) as [Hname|Hname].
  - rewrite (find_app_last _ _ u Hn); [reflexivity | now apply bool_decide_eq_true].
  - rewrite (find_app_none _ _ u Hn) by now apply bool_decide_eq_false.
    destruct Hu as [Hu|Hu]; [contradiction|].
    apply find_app_last; [exact He | now apply bool_decide_eq_true].
Qed.

(** X16.  Register, then log in.  When the hashing scheme accepts the
    password a hash was made from, a user who has just registered logs in
    with that password, under the username as long as no earlier user has
    it for email, and under the email as long as no earlier user has it
    for username: the answer is 200 and both tokens carry the new id. *)
Theorem register_then_login gen check now later d r r' s resp s' x :
  (forall p, check (gen p) p = true) ->
  App.dispatch gen now (App.POST_auth_register (Some d)) r s = Some (resp, s') ->
  status resp = 201 ->
  x = Json.get_str (Json.username d) /\ ~ In x (map User.email (users s))
  \/ x = Json.get_str (Json.email d) /\ ~ In x (map User.username (users s)) ->
  exists u,
    fst (Account.login_route check later
           (login_json x (Json.get_str (Json.password d))) r' s')
    = Account.mkResponse 200
        (Account.Session "Login successful" u (next_uuid s) (next_uuid s))
    /\ User.id u = next_uuid s
    /\ User.username u = Json.get_str (Json.username d)
    /\ User.email u = Json.get_str (Json.email d)
    /\ User.last_login u = Some later.
Proof.
  intros Hhash Hreg H201 Hx.
  destruct (register_outcome gen now (Some d) r s)
    as [(_ & e & Hr)|(d' & [= <-] & Hok & Hdup & Hr)];
    rewrite Hr in Hreg; injection Hreg as <- <-; [discriminate H201|].
  pose proof Hok as (Hu & He & Hp & _).
  apply missing_false in Hu as (u & Hu & Hune & Hgu), He as (e & He & Hene & Hge),
    Hp as (p & Hp & Hpne & Hgp).
  set (new := registered_user gen now s d).
  assert (Account.user_by_login (with_user s new) x = Some new) as Hfind.
  { destruct Hx as [[-> Hx]|[-> Hx]].
    - apply login_match_appended; [now left | | exact Hx].
      intros Hin. apply Hdup. left. exists u. split; [exact Hu | now rewrite <- Hgu].
    - apply login_match_appended; [now right | exact Hx |].
      intros Hin. apply Hdup. right. exists e. split; [exact He | now rewrite <- Hge]. }
  assert (x <> EmptyString) as Hxne by (destruct Hx as [[-> _]|[-> _]]; congruence).
  rewrite (login_first_match check later x _ r' _ new Hxne) by (congruence || exact Hfind).
  unfold new at 1 2. cbn [registered_user User.password_hash User.is_active].
  rewrite Hhash. cbn [negb fst].
  exists (Account.logged_in later new). repeat split.
Qed.

Lemma register_then_login_witness :
  exists u,
    fst (Account.login_route (fun h p => bool_decide (h = p)) 5 (login_json "carol" "pw123")
           anonymous
           (with_user blog
              (registered_user (fun p => p) 4 blog
                 (Json.mkUser (Some "carol") (Some "carol@x.com") (Some "pw123")
                    None None false))))
    = Account.mkResponse 200 (Account.Session "Login successful" u 11 11)
    /\ User.username u = "carol".
Proof.
  destruct (register_then_login (fun p => p) (fun h p => bool_decide (h = p)) 4 5
              (Json.mkUser (Some "carol") (Some "carol@x.com") (Some "pw123") None None false)
              anonymous anonymous blog
              (mkResponse 201
                 (Registered "User registered successfully"
                    (registered_user (fun p => p) 4 blog
                       (Json.mkUser (Some "carol") (Some "carol@x.com") (Some "pw123")
                          None None false)) 11 11))
              (with_user blog
                 (registered_user (fun p => p) 4 blog
                    (Json.mkUser (Some "carol") (Some "carol@x.com") (Some "pw123")
                       None None false)))
              "carol")
    as (u & Hu & _ & Hname & _).
  - intros p. now apply bool_decide_eq_true.
  - reflexivity.
  - reflexivity.
  - left. split; [reflexivity|]. simpl. intros [H|[H|[]]]; discriminate H.
  - exists u. split; [exact Hu | exact Hname].
Defined.

Lemma logged_in_credentials now i s :
  map credential_columns (users (Account.update_user s i (Account.logged_in now)))
  = map credential_columns (users s).
Proof.
  unfold Account.update_user. cbn [users]. rewrite map_map. apply map_ext.
  intros u. now destruct (bool_decide _).
Qed.

(** X17.  POST /auth/login hands out tokens only for a stored user whose
    username or email is the one sent, whose hash accepts the password
    sent and whose account is active; the tokens carry that user's id.
    Any other answer leaves the store as it was, and a login never touches
    the id, username, email, password hash or flags of any user, nor the
    other tables. *)
Theorem login_sound check now data r s :
  (Account.status (fst (Account.login_route check now data r s)) <> 200 ->
   snd (Account.login_route check now data r s) = s)
  /\ map credential_columns (users (snd (Account.login_route check now data r s)))
     = map credential_columns (users s)
  /\ posts (snd (Account.login_route check now data r s)) = posts s
  /\ comments (snd (Account.login_route check now data r s)) = comments s
  /\ (Account.status (fst (Account.login_route check now data r s)) = 200 ->
      exists d user,
        data = Some d
        /\ In user (users s)
        /\ (User.username user = Json.get_str (Account.username_or_email d)
            \/ User.email user = Json.get_str (Account.username_or_email d))
        /\ check (User.password_hash user) (Json.get_str (Account.password d)) = true
        /\ User.is_active user = true
        /\ Account.body (fst (Account.login_route check now data r s))
           = Account.Session "Login successful" (Account.logged_in now user)
               (User.id user) (User.id user)).
Proof.
  unfold Account.login_route, Flask.undecorated, Account.login.
  destruct data as [d|]; [|simpl; repeat split; intros H; discriminate H].
  destruct (negb (Account.truthy_credentials (Some d)));
    [simpl; repeat split; intros H; discriminate H|].
  destruct (Json.missing _ || Json.missing _);
    [simpl; repeat split; intros H; discriminate H|].
  destruct (Account.user_by_login s _) as [user|] eqn:Hfind;
    [|simpl; repeat split; intros H; discriminate H].
  destruct (negb (check _ _)) eqn:Hc;
    [simpl; repeat split; intros H; discriminate H|].
  destruct (negb (User.is_active user)) eqn:Ha;
    [simpl; repeat split; intros H; discriminate H|].
  cbn [fst snd Account.status Account.body].
  split; [intros H; now contradiction H|].
  split; [apply logged_in_credentials|]. split; [reflexivity|]. split; [reflexivity|].
  intros _. exists d, user. split; [reflexivity|].
  apply user_by_login_some in Hfind as [Hin Hm].
  split; [exact Hin|]. split; [exact Hm|].
  split; [now apply negb_false_iff in Hc|].
  split; [now apply negb_false_iff in Ha | reflexivity].
Qed.

(** ** Changing the password *)

Lemma find_map_same {A} (p : A -> bool) (g : A -> A) (l : list A) :
  (forall a, p (g a) = p a) -> find p (map g l) = option_map g (find p l).
Proof.
  intros Hp. induction l as [|a l IH]; [reflexivity|]. simpl. rewrite Hp.
  now destruct (p a).
Qed.

Lemma user_by_login_update s i f x user :
  (forall u, User.username (f u) = User.username u) ->
  (forall u, User.email (f u) = User.email u) ->
  Account.user_by_login s x = Some user ->
  Account.user_by_login (Account.update_user s i f) x
  = Some (if bool_decide (User.id user = i) then f user else user).
Proof.
  intros Hn He.
  unfold Account.user_by_login, Db.user_by_username, Db.user_by_email, Db.first,
    Account.update_user. cbn [users].
  rewrite !find_map_same
    by (intros u; destruct (bool_decide (User.id u = i)); now rewrite ?Hn, ?He).
  destruct (find _ (users s)) as [v|]; [now intros [= ->]|].
  intros ->. reflexivity.
Qed.

(** X18.  Change the password, then log in.  A logged-in user who sends
    the current password and a new one is answered 200; from then on the
    login under their name is served with the new password, as long as the
    account is active and the hashing scheme accepts the password a hash
    was made from, and refused with every password the new hash rejects. *)
Theorem change_password_then_login gen check now later old new x uid user r r' s :
  (forall p, check (gen p) p = true) ->
  Flask.bearer r = Some uid ->
  Db.get_user s uid = Some user ->
  Account.user_by_login s x = Some user ->
  User.is_active user = true ->
  check (User.password_hash user) old = true ->
  old <> EmptyString -> new <> EmptyString -> x <> EmptyString ->
  exists s',
    Account.change_password_route gen check now (change_json old new) r s
    = (Account.mkResponse 200 (Account.Message "Password changed successfully"), s')
    /\ (exists u,
          fst (Account.login_route check later (login_json x new) r' s')
          = Account.mkResponse 200 (Account.Session "Login successful" u uid uid)
          /\ User.username u = User.username user /\ User.email u = User.email user)
    /\ (forall p, p <> EmptyString -> check (gen new) p = false ->
          Account.login_route check later (login_json x p) r' s'
          = (Account.mkResponse 401 (Account.Error "Invalid credentials"), s')).
Proof.
  intros Hhash Hb Hget Hfind Hact Hold Ho Hn Hx.
  pose proof (get_user_id _ _ _ Hget) as Hid.
  exists (Account.update_user s uid (Account.with_password (gen new) now)).
  assert (Account.user_by_login
            (Account.update_user s uid (Account.with_password (gen new) now)) x
          = Some (Account.with_password (gen new) now user)) as Hfind'.
  { rewrite (user_by_login_update s uid _ x user) by (reflexivity || exact Hfind).
    now rewrite bool_decide_eq_true_2 by exact Hid. }
  split; [|split].
  - unfold Account.change_password_route.
    rewrite (jwt_required_with_valid _ _ _ _ _ Hb).
    unfold Account.change_password, Flask.get_jwt_identity. cbn [Flask.jwt_identity].
    rewrite Hget. unfold change_json.
    destruct old as [|a old]; [contradiction|]. destruct new as [|b new]; [contradiction|].
    cbn [Account.truthy_change Account.current_password Account.new_password Json.has
         orb negb Json.missing Json.get_str default Py.truthy].
    unfold id. rewrite Hold. reflexivity.
  - rewrite (login_first_match check later x new r' _ _ Hx Hn Hfind').
    cbn [Account.with_password User.password_hash User.is_active User.id].
    rewrite Hhash, Hact, Hid. cbn [negb fst].
    eexists. split; [reflexivity|]. split; reflexivity.
  - intros p Hp Hrej.
    rewrite (login_first_match check later x p r' _ _ Hx Hp Hfind').
    cbn [Account.with_password User.password_hash]. now rewrite Hrej.
Qed.

Lemma change_password_then_login_witness :
  exists s',
    Account.change_password_route (fun p => p) (fun h p => bool_decide (h = p)) 5
      (change_json "h" "n3w") (as_user 1) blog
    = (Account.mkResponse 200 (Account.Message "Password changed successfully"), s')
    /\ (exists u,
          fst (Account.login_route (fun h p => bool_decide (h = p)) 6
                 (login_json "alice" "n3w") anonymous s')
          = Account.mkResponse 200 (Account.Session "Login successful" u 1 1)
          /\ User.username u = "alice" /\ User.email u = "alice@x.com")
    /\ Account.login_route (fun h p => bool_decide (h = p)) 6
         (login_json "alice" "h") anonymous s'
       = (Account.mkResponse 401 (Account.Error "Invalid credentials"), s').
Proof.
  destruct (change_password_then_login (fun p => p) (fun h p => bool_decide (h = p)) 5 6
              "h" "n3w" "alice" 1
              (User.mk 1 "alice" "alice@x.com" "h" "" "" true false 0 0 None)
              (as_user 1) anonymous blog)
    as (s' & Hc & Hl & Hr); try reflexivity; try discriminate.
  - intros p. now apply bool_decide_eq_true.
  - exists s'. split; [exact Hc|]. split; [exact Hl|].
    apply Hr; [discriminate | reflexivity].
Defined.

(** ** The answers of tag creation *)




(** ** A username that is another user's email *)


